(** * Facial_Recognition: the face-comparison service of [app.py]

    A shallow embedding of the Flask service in [src/app.py]: the
    per-candidate comparison [compare_photo_with_url], the candidate scan
    [compare_photo_and_array] and the endpoint [compare_faces] behind
    [POST /api/compare-faces].

    The program is I/O glue, so the embedding is a small state-and-exception
    monad over a world that holds the file system, the number of UUIDs drawn
    and the trace of external calls.  The external libraries ([requests],
    [DeepFace], [base64], [uuid], [tempfile]) and [sys.stdout] are
    parameters of the development: a fetch is a function of the URL, a
    verdict a function of the contents of the two files.  Module [Doubles]
    instantiates them with test doubles.

    A str is kept as its UTF-8 bytes, a surrogate encoded like any other
    code point, so that every str [json.loads] can produce is a value of
    the model; [len] and iteration go by code point.

    [print] writes to [sys.stdout] and raises [UnicodeEncodeError] when
    the stream cannot encode a character of the text.  The fixed text of a
    message, numbers, the names of the transient files and the
    descriptions of exceptions are taken to be text every stream encodes,
    so a [print] can fail only on a value of the request it interpolates.  Two
    prints are the first to show such a value: line 84 (the candidate URL,
    before the [try] of line 85) and line 127 (the data-URI prefix).  They
    are modelled, as the test whether the stream accepts the value.  The
    later prints of a candidate URL (lines 45, 68, 88, 91, 93 and 155) show
    a value that line 84 has just printed, cannot fail where it did not,
    and are left out with the prints of fixed text.
    [traceback.print_exc] writes to [sys.stderr], which escapes what it
    cannot encode, and is left out. *)

From Stdlib Require Import ZArith Floats Ascii.
From stdpp Require Import base gmap strings list pretty.

Set Warnings "-register-all,-inexact-float".

Open Scope string_scope.

(** ** Python values *)

(** The values [json.loads] produces.  A dict is kept as the list of its
    items in insertion order, because iterating over a dict (line 83, when
    [databaseUrls] is an object) visits the keys in that order. *)
Inductive json :=
| JNull
| JBool (b : bool)
| JInt (z : Z)
| JFloat (f : float)
| JStr (s : string)
| JArr (xs : list json)
| JObj (items : list (string * json)).

(** Python bytes objects. *)
Abbreviation bytes := (list Byte.byte).

(** Exceptions: the class decides which [except] clause catches it, and
    [exn_str] is what [str(e)] gives.  [RequestException] stands for
    [requests.exceptions.RequestException] and its subclasses; every class
    here derives from [Exception]. *)
Inductive exn_class :=
| TypeError | AttributeError | KeyError | IndexError | ValueError
| BinasciiError | FileNotFoundError | RequestException | HTTPException
| UnicodeEncodeError | OtherException.

Record exn := Exn { exn_cls : exn_class; exn_str : string }.

Inductive result (A : Type) :=
| Ok (a : A)
| Raise (e : exn).
Arguments Ok {A} a.
Arguments Raise {A} e.

Definition is_RequestException (e : exn) : bool :=
  match exn_cls e with RequestException => true | _ => false end.

(** Pure code that may raise runs in [result]. *)
#[global] Instance result_ret : MRet result := @Ok.
#[global] Instance result_bind : MBind result :=
  fun A B k r => match r with Ok a => k a | Raise e => Raise e end.

(** The name Python prints for the type of a value in its error messages. *)
Definition type_name (v : json) : string :=
  match v with
  | JNull => "NoneType" | JBool _ => "bool" | JInt _ => "int"
  | JFloat _ => "float" | JStr _ => "str" | JArr _ => "list"
  | JObj _ => "dict"
  end.

(** [bool(v)]: what [if v:] and [not v] test. *)
Definition truthy (v : json) : bool :=
  match v with
  | JNull => false
  | JBool b => b
  | JInt z => negb (z =? 0)%Z
  | JFloat f => negb (PrimFloat.eqb f 0%float)
  | JStr s => negb (String.eqb s "")
  | JArr xs => match xs with [] => false | _ => true end
  | JObj items => match items with [] => false | _ => true end
  end.

(** [s.startswith(p)]. *)
Fixpoint str_startswith (p s : string) : bool :=
  match p, s with
  | EmptyString, _ => true
  | String a p', String b s' => Ascii.eqb a b && str_startswith p' s'
  | String _ _, EmptyString => false
  end.

(** [needle in hay] on two strs: the substring test. *)
Fixpoint str_contains (needle hay : string) : bool :=
  str_startswith needle hay ||
  match hay with
  | EmptyString => false
  | String _ rest => str_contains needle rest
  end.

Definition is_JStr (k : string) (v : json) : bool :=
  match v with JStr s => String.eqb k s | _ => false end.

(** [dict.get]-style lookup in the items of a dict. *)
Fixpoint assoc (k : string) (items : list (string * json)) : option json :=
  match items with
  | [] => None
  | (k', v) :: rest => if String.eqb k k' then Some v else assoc k rest
  end.

(** [k in v] for a str [k]: key membership on a dict, element membership on
    a list, substring on a str, a [TypeError] on everything else. *)
Definition py_contains (k : string) (v : json) : result bool :=
  match v with
  | JObj items => Ok (bool_decide (is_Some (assoc k items)))
  | JArr xs => Ok (existsb (is_JStr k) xs)
  | JStr s => Ok (str_contains k s)
  | _ => Raise (Exn TypeError
                 ("argument of type '" ++ type_name v ++ "' is not iterable"))
  end.

(** [v[k]] for a str [k]. *)
Definition py_getitem (v : json) (k : string) : result json :=
  match v with
  | JObj items =>
      match assoc k items with
      | Some x => Ok x
      | None => Raise (Exn KeyError ("'" ++ k ++ "'"))
      end
  | JArr _ => Raise (Exn TypeError "list indices must be integers or slices, not str")
  | JStr _ => Raise (Exn TypeError "string indices must be integers, not 'str'")
  | _ => Raise (Exn TypeError
                 ("'" ++ type_name v ++ "' object is not subscriptable"))
  end.

(** A byte of the form 10xxxxxx: it continues the code point begun by an
    earlier byte. *)
Definition is_continuation_byte (c : Ascii.ascii) : bool :=
  (128 <=? N_of_ascii c)%N && (N_of_ascii c <? 192)%N.

(** The continuation bytes a str starts with, and the code points of the
    rest: each a lead byte with the continuation bytes after it. *)
Fixpoint code_points_go (s : string) : string * list string :=
  match s with
  | EmptyString => (EmptyString, [])
  | String c rest =>
      let (continuation, points) := code_points_go rest in
      if is_continuation_byte c then (String c continuation, points)
      else (EmptyString, String c continuation :: points)
  end.

(** The characters of a str, each as a str of its own.  (A str of Python
    never starts with a continuation byte; such bytes count as one
    character.) *)
Definition code_points (s : string) : list string :=
  match code_points_go s with
  | (EmptyString, points) => points
  | (continuation, points) => continuation :: points
  end.

(** [len(v)]. *)
Definition py_len (v : json) : result Z :=
  match v with
  | JStr s => Ok (Z.of_nat (length (code_points s)))
  | JArr xs => Ok (Z.of_nat (length xs))
  | JObj items => Ok (Z.of_nat (length items))
  | _ => Raise (Exn TypeError
                 ("object of type '" ++ type_name v ++ "' has no len()"))
  end.

Definition str_chars (s : string) : list json := map JStr (code_points s).

(** What [for x in v] visits: the elements of a list, the characters of a
    str, the keys of a dict. *)
Definition py_iter (v : json) : result (list json) :=
  match v with
  | JArr xs => Ok xs
  | JStr s => Ok (str_chars s)
  | JObj items => Ok (map (fun kv => JStr (fst kv)) items)
  | _ => Raise (Exn TypeError
                 ("'" ++ type_name v ++ "' object is not iterable"))
  end.

(** [s.split(sep)] for a one-character separator: cut at every occurrence;
    the result always has at least one piece. *)
Fixpoint str_split (sep : Ascii.ascii) (s : string) : list string :=
  match s with
  | EmptyString => [EmptyString]
  | String c rest =>
      if Ascii.eqb c sep then EmptyString :: str_split sep rest
      else match str_split sep rest with
           | [] => [String c EmptyString]
           | piece :: pieces => String c piece :: pieces
           end
  end.

(** [v.split(',')]: only a str has the method. *)
Definition py_split_comma (v : json) : result (list string) :=
  match v with
  | JStr s => Ok (str_split ","%char s)
  | _ => Raise (Exn AttributeError
                 ("'" ++ type_name v ++ "' object has no attribute 'split'"))
  end.

(** [pieces[i]] on a list of strs. *)
Definition list_getitem (pieces : list string) (i : nat) : result json :=
  match pieces !! i with
  | Some s => Ok (JStr s)
  | None => Raise (Exn IndexError "list index out of range")
  end.

(** [os.path.join(a, b)] (posixpath). *)
Definition ends_with_slash (a : string) : bool :=
  match String.length a with
  | O => false
  | S n => match String.get n a with
           | Some c => Ascii.eqb c "/"%char
           | None => false
           end
  end.

Definition os_path_join (a b : string) : string :=
  if str_startswith "/" b then b
  else if String.eqb a "" || ends_with_slash a then a ++ b
  else a ++ "/" ++ b.

(** ** The world *)

(** What [requests.get] hands back when it does not raise. *)
Record http_response := HttpResponse { status_code : Z; content : bytes }.

(** The external calls the service makes, newest first in the trace. *)
Inductive event :=
| EvGet (url : json)
| EvVerify (img1_path img2_path : string)
| EvOpen (path : string)
| EvWrite (path : string) (data : bytes)
| EvRemove (path : string).

Record World := mkWorld {
  files : gmap string bytes;
  uuids_drawn : nat;
  trace : list event
}.

Definition set_files (fs : gmap string bytes) (w : World) : World :=
  mkWorld fs (uuids_drawn w) (trace w).

Definition log (ev : event) (w : World) : World :=
  mkWorld (files w) (uuids_drawn w) (ev :: trace w).

(** ** The monad: state and exceptions *)

Definition M (A : Type) : Type := World -> result A * World.

Definition ret {A} (a : A) : M A := fun w => (Ok a, w).

Definition bind {A B} (m : M A) (k : A -> M B) : M B :=
  fun w => match m w with
           | (Ok a, w') => k a w'
           | (Raise e, w') => (Raise e, w')
           end.

Definition lift {A} (r : result A) : M A := fun w => (r, w).

(** [try: m  except <class>: handler], the class given as a test on the
    exception; what the body did to the world before raising stays done. *)
Definition try_except {A} (m : M A) (catches : exn -> bool)
    (handler : exn -> M A) : M A :=
  fun w => match m w with
           | (Ok a, w') => (Ok a, w')
           | (Raise e, w') =>
               if catches e then handler e w' else (Raise e, w')
           end.

(** [except Exception]: every class of the model. *)
Definition Exception (e : exn) : bool := true.

(** The monad is used through stdpp's [x ← m; k] and [m;; k]. *)
#[global] Instance M_ret : MRet M := @ret.
#[global] Instance M_bind : MBind M := fun A B k m => bind m k.

(** [a or b] with Python's short circuit: [b] is not evaluated (and cannot
    raise) when [a] is true. *)
Definition or_else (a : bool) (b : M bool) : M bool :=
  if a then ret true else b.

(** ** The service *)

(** *** The external libraries

    The service owns no algorithm: it calls [tempfile], [uuid], [requests],
    [DeepFace] and [base64].  They are the interface the service is written
    against, and every statement below holds for all implementations. *)
Class ExternalLibs := {
  (** [tempfile.gettempdir()]. *)
  tempdir : string;
  (** [str(uuid.uuid4())] for the n-th UUID drawn. *)
  uuid_source : nat -> string;
  (** [requests.get(url, timeout=10)]: a response, or an exception. *)
  http_get : json -> result http_response;
  (** [DeepFace.verify(img1_path, img2_path, model_name='Facenet',
      detector_backend='opencv', distance_metric='cosine')["verified"]] on
      the contents of the two files ([None] for a file that does not
      exist), or the exception it raises. *)
  deepface_verify : option bytes -> option bytes -> result bool;
  (** [base64.b64decode(s)] on a str. *)
  b64decode_str : string -> result bytes;
  (** Whether [sys.stdout] can encode the text a value is formatted to. *)
  stdout_accepts : json -> bool;
  (** [str(e)] of the [UnicodeEncodeError] of a [print] whose text is
      [before] followed by the value. *)
  encode_error : string -> json -> string
}.

Section Service.

Context {libs : ExternalLibs}.

(** *** Primitive operations *)

Definition uuid_uuid4 : M string :=
  fun w => (Ok (uuid_source (uuids_drawn w)),
            mkWorld (files w) (S (uuids_drawn w)) (trace w)).

Definition requests_get (url : json) : M http_response :=
  fun w => (http_get url, log (EvGet url) w).

Definition DeepFace_verify (img1_path img2_path : string) : M bool :=
  fun w => (deepface_verify (files w !! img1_path) (files w !! img2_path),
            log (EvVerify img1_path img2_path) w).

(** [open(path, 'wb')]: the file exists and is empty from here on. *)
Definition open_wb (path : string) : M unit :=
  fun w => (Ok tt, log (EvOpen path) (set_files (<[path := []]> (files w)) w)).

(** [f.write(data)] on the file just opened, through to the close. *)
Definition file_write (path : string) (data : bytes) : M unit :=
  fun w => (Ok tt,
            log (EvWrite path data) (set_files (<[path := data]> (files w)) w)).

Definition os_path_exists (path : string) : M bool :=
  fun w => (Ok (bool_decide (is_Some (files w !! path))), w).

Definition os_remove (path : string) : M unit :=
  fun w => match files w !! path with
           | Some _ =>
               (Ok tt, log (EvRemove path) (set_files (delete path (files w)) w))
           | None =>
               (Raise (Exn FileNotFoundError
                         ("[Errno 2] No such file or directory: '" ++ path ++ "'")),
                w)
           end.

(** [if os.path.exists(path): os.remove(path)]. *)
Definition remove_if_exists (path : string) : M unit :=
  ex ← os_path_exists path;
  if ex : bool then os_remove path else mret tt.

(** [base64.b64decode(x)] on a value of the request: the decoder on a
    str, and the [TypeError] of the module on everything else. *)
Definition b64decode (x : json) : result bytes :=
  match x with
  | JStr s => b64decode_str s
  | _ => Raise (Exn TypeError
                 ("argument should be a bytes-like object or ASCII string, not '"
                  ++ type_name x ++ "'"))
  end.

(** [print(f"<before>{value}...")]: nothing happens when the stream takes
    the value, and a [UnicodeEncodeError] is raised when it does not. *)
Definition py_print (before : string) (value : json) : result unit :=
  if stdout_accepts value then Ok tt
  else Raise (Exn UnicodeEncodeError (encode_error before value)).

(** *** [compare_photo_with_url] (lines 32-76)

    Its prints (lines 45, 68 and 74) show the URL its caller has printed
    at line 84 and the description of an exception. *)

Definition temp_url_name (u : string) : string :=
  os_path_join tempdir ("temp_url_" ++ u ++ ".jpg").

Definition compare_photo_with_url (photo_path : string) (image_url : json)
    : M bool :=
  try_except
    (u ← uuid_uuid4;
     let temp_url_file := temp_url_name u in
     try_except
       (response ← requests_get image_url;
        if negb (status_code response =? 200)%Z then mret false
        else
          open_wb temp_url_file;;
          file_write temp_url_file (content response);;
          result ← DeepFace_verify photo_path temp_url_file;
          remove_if_exists temp_url_file;;
          mret result)
       is_RequestException
       (fun e => remove_if_exists temp_url_file;; mret false))
    Exception
    (fun e => mret false).

(** *** [compare_photo_and_array] (lines 78-95) *)

(** The [for] loop of line 83 over the URLs still to visit; [None] is
    [JNull].  The [print] of line 84 comes before the [try]. *)
Fixpoint compare_photo_and_array_loop (photo_path : string)
    (urls : list json) : M json :=
  match urls with
  | [] => mret JNull
  | image_url :: rest =>
      lift (py_print "Comparing with URL: " image_url);;
      found ← try_except
                (result ← compare_photo_with_url photo_path image_url;
                 mret result)
                Exception
                (fun e => mret false);
      if found : bool then mret image_url
      else compare_photo_and_array_loop photo_path rest
  end.

Definition compare_photo_and_array (photo_path : string)
    (database_urls : json) : M json :=
  urls ← lift (py_iter database_urls);
  compare_photo_and_array_loop photo_path urls.

(** *** [compare_faces] (lines 97-175) *)

(** What a view returns: [jsonify(body), status]. *)
Record flask_response := FlaskResponse { body : json; status : Z }.

Definition jsonify (items : list (string * json)) (code : Z)
    : flask_response :=
  FlaskResponse (JObj items) code.

Definition temp_captured_name (u : string) : string :=
  os_path_join tempdir ("temp_captured_" ++ u ++ ".jpg").

(** Lines 123-127: when the value contains a comma, the piece of index 1
    of its split at commas replaces it, and the piece of index 0 is
    printed. *)
Definition strip_data_uri_prefix (captured_image_base64 : json)
    : result json :=
  has_comma ← py_contains "," captured_image_base64;
  if has_comma : bool then
    pieces ← py_split_comma captured_image_base64;
    prefix ← list_getitem pieces 0;
    pieces ← py_split_comma captured_image_base64;
    captured_image_base64 ← list_getitem pieces 1;
    py_print "Extracted base64 data with prefix: " prefix;;
    mret captured_image_base64
  else mret captured_image_base64.

(** [request_json] is what evaluating [request.json] gives: the parsed
    body, or the exception Flask raises for a body it cannot parse. *)
Definition compare_faces (request_json : result json) : M flask_response :=
  try_except
    (data ← lift request_json;
     invalid ← or_else (negb (truthy data))
                 (has_image ← lift (py_contains "capturedImage" data);
                  or_else (negb has_image)
                    (has_urls ← lift (py_contains "databaseUrls" data);
                     mret (negb has_urls)));
     if invalid : bool then
       mret (jsonify
               [("matchFound", JBool false);
                ("error",
                 JStr "Invalid request data. Need capturedImage and databaseUrls.")]
               400)
     else
       captured_image_base64 ← lift (py_getitem data "capturedImage");
       database_urls ← lift (py_getitem data "databaseUrls");
       lift (py_len database_urls);;
       no_urls ← or_else (negb (truthy database_urls))
                   (n ← lift (py_len database_urls); mret (n =? 0)%Z);
       if no_urls : bool then
         mret (jsonify
                 [("matchFound", JBool false);
                  ("error", JStr "No database URLs provided")]
                 400)
       else
         captured_image_base64 ←
           lift (strip_data_uri_prefix captured_image_base64);
         u ← uuid_uuid4;
         let temp_file_path := temp_captured_name u in
         failed ← try_except
                    (open_wb temp_file_path;;
                     decoded ← lift (b64decode captured_image_base64);
                     file_write temp_file_path decoded;;
                     mret None)
                    Exception
                    (fun e =>
                       mret (Some (jsonify
                               [("matchFound", JBool false);
                                ("error",
                                 JStr ("Invalid base64 image data: "
                                       ++ exn_str e))]
                               400)));
         match failed with
         | Some response => mret response
         | None =>
             match_url ← compare_photo_and_array temp_file_path database_urls;
             remove_if_exists temp_file_path;;
             if truthy match_url then
               mret (jsonify
                       [("matchFound", JBool true);
                        ("matchedImageUrl", match_url);
                        ("confidence", JFloat 0.85)]
                       200)
             else
               mret (jsonify
                       [("matchFound", JBool false);
                        ("message",
                         JStr "No matching face found in the database")]
                       200)
         end)
    Exception
    (fun e =>
       mret (jsonify
               [("matchFound", JBool false); ("error", JStr (exn_str e))]
               500)).

(** *** Vocabulary of the statements *)

(** The bytes a fetch delivers: the body of a response with status 200. *)
Definition fetched (url : json) : option bytes :=
  match http_get url with
  | Ok response =>
      if (status_code response =? 200)%Z then Some (content response)
      else None
  | Raise _ => None
  end.

(** The fetch succeeds and the matcher reports a match with the photo. *)
Definition candidate_matches (photo : option bytes) (url : json) : bool :=
  match fetched url with
  | Some image =>
      match deepface_verify photo (Some image) with
      | Ok verified => verified
      | Raise _ => false
      end
  | None => false
  end.

(** Network error, timeout or a status other than 200. *)
Definition fetch_fails (url : json) : Prop := fetched url = None.

(** The image arrives and the matcher raises on it. *)
Definition matcher_fails (photo : option bytes) (url : json) : Prop :=
  exists image e,
    fetched url = Some image /\ deepface_verify photo (Some image) = Raise e.

(** The scan's answer read off the libraries: the first URL of the list
    that matches, [None] when there is none. *)
Definition first_match (photo : option bytes) (urls : list json) : json :=
  default JNull (List.find (candidate_matches photo) urls).

(** The scan's outcome read off the libraries, the [print] of line 84
    included: the first URL that matches, [None] when there is none, and
    the exception of the [print] when a URL that cannot be printed comes
    before any match. *)
Fixpoint scan_outcome (photo : option bytes) (urls : list json)
    : result json :=
  match urls with
  | [] => Ok JNull
  | url :: rest =>
      if stdout_accepts url then
        if candidate_matches photo url then Ok url
        else scan_outcome photo rest
      else Raise (Exn UnicodeEncodeError
                    (encode_error "Comparing with URL: " url))
  end.

(** A value [sys.stdout] can print. *)
Definition printable (value : json) : Prop := stdout_accepts value = true.

(** The photo is none of the scratch files the scan will create. *)
Definition photo_apart (photo_path : string) : Prop :=
  forall n, temp_url_name (uuid_source n) ≠ photo_path.

(** A value lines 114-121 let through: [len] works on it and is not 0. *)
Definition nonempty_container (v : json) : bool :=
  match v with
  | JStr (String _ _) | JArr (_ :: _) | JObj (_ :: _) => true
  | _ => false
  end.

(** The transient file of the request served next. *)
Definition next_temp_captured (w : World) : string :=
  temp_captured_name (uuid_source (uuids_drawn w)).

(** The world once the request has opened its transient file. *)
Definition world_opened (w : World) : World :=
  mkWorld (<[next_temp_captured w := []]> (files w)) (S (uuids_drawn w))
    (EvOpen (next_temp_captured w) :: trace w).

(** The world in which the scan of a request starts: the decoded photo
    is in the transient file. *)
Definition world_with_photo (w : World) (decoded : bytes) : World :=
  mkWorld (<[next_temp_captured w := decoded]> (files (world_opened w)))
    (S (uuids_drawn w))
    (EvWrite (next_temp_captured w) decoded :: trace (world_opened w)).

(** [None], a bool or a number: the JSON values that are not containers. *)
Definition is_scalar (v : json) : bool :=
  match v with
  | JNull | JBool _ | JInt _ | JFloat _ => true
  | _ => false
  end.

(** The three bodies the endpoint answers with. *)
Definition match_response (match_url : json) : flask_response :=
  jsonify [("matchFound", JBool true);
           ("matchedImageUrl", match_url);
           ("confidence", JFloat 0.85)] 200.

Definition no_match_response : flask_response :=
  jsonify [("matchFound", JBool false);
           ("message", JStr "No matching face found in the database")] 200.

Definition error_response (description : string) (code : Z)
    : flask_response :=
  jsonify [("matchFound", JBool false); ("error", JStr description)] code.

(** The scratch file of the next comparison. *)
Definition next_temp_url (w : World) : string :=
  temp_url_name (uuid_source (uuids_drawn w)).

(** The value a run returns and the world it leaves. *)
Definition returned {A} (run : result A * World) : result A := fst run.
Definition world_after {A} (run : result A * World) : World := snd run.

(** *** More vocabulary *)

(** The URLs a stretch of trace fetched, in the order of the calls (the
    trace is newest first). *)
Definition fetches_of (evs : list event) : list json :=
  rev (omap (fun ev => match ev with EvGet url => Some url | _ => None end)
         evs).

(** The candidates a scan visits: up to and including the first match. *)
Fixpoint visited (photo : option bytes) (urls : list json) : list json :=
  match urls with
  | [] => []
  | url :: rest =>
      if candidate_matches photo url then [url]
      else url :: visited photo rest
  end.

(** The image arrives and the matcher raises an exception that line 67
    does not catch: the path on which the scratch file stays. *)
Definition matcher_leaks (photo : option bytes) (url : json) : Prop :=
  exists image e,
    fetched url = Some image
    /\ deepface_verify photo (Some image) = Raise e
    /\ is_RequestException e = false.

(** No scratch file of a comparison still to come is in the directory. *)
Definition scratch_fresh (w : World) : Prop :=
  forall n, (uuids_drawn w <= n)%nat ->
            files w !! temp_url_name (uuid_source n) = None.

(** A fetch or a matcher call. *)
Definition is_external_call (ev : event) : bool :=
  match ev with
  | EvGet _ | EvVerify _ _ => true
  | _ => false
  end.

End Service.

(** ** Test doubles for the external libraries

    A concrete implementation of [ExternalLibs] to run the service on:
    a lenient base64 decoder that follows CPython's [binascii.a2b_base64],
    a handful of URLs, a matcher that compares file contents, and a
    [sys.stdout] with the UTF-8 encoding, which refuses a surrogate. *)

Module Doubles.

(** The value of a character of the base64 alphabet. *)
Definition b64_value (c : Ascii.ascii) : option N :=
  let n := N_of_ascii c in
  if (65 <=? n)%N && (n <=? 90)%N then Some (n - 65)%N
  else if (97 <=? n)%N && (n <=? 122)%N then Some (n - 71)%N
  else if (48 <=? n)%N && (n <=? 57)%N then Some (n + 4)%N
  else if (n =? 43)%N then Some 62%N
  else if (n =? 47)%N then Some 63%N
  else None.

Definition byte_of_N (n : N) : Byte.byte := byte_of_ascii (ascii_of_N n).

(** The decoding loop of [binascii.a2b_base64] without strict mode:
    characters outside the alphabet are skipped, a pad sequence that
    completes a quad ends the input, and leftover data characters are an
    error.  [out] is the output so far, newest byte first. *)
Fixpoint a2b_base64 (s : string) (quad_pos : nat) (leftchar : N)
    (pads : nat) (out : bytes) : result bytes :=
  match s with
  | EmptyString =>
      match quad_pos with
      | O => Ok (rev out)
      | 1%nat =>
          Raise (Exn BinasciiError
                   ("Invalid base64-encoded string: number of data characters ("
                    ++ pretty (length out / 3 * 4 + 1)%nat
                    ++ ") cannot be 1 more than a multiple of 4"))
      | _ => Raise (Exn BinasciiError "Incorrect padding")
      end
  | String c rest =>
      if Ascii.eqb c "="%char then
        if (2 <=? quad_pos)%nat then
          if (4 <=? quad_pos + S pads)%nat then Ok (rev out)
          else a2b_base64 rest quad_pos leftchar (S pads) out
        else a2b_base64 rest quad_pos leftchar pads out
      else
        match b64_value c with
        | None => a2b_base64 rest quad_pos leftchar pads out
        | Some v =>
            match quad_pos with
            | O => a2b_base64 rest 1 v 0 out
            | 1%nat =>
                a2b_base64 rest 2 (N.land v 15) 0
                  (byte_of_N (N.lor (N.shiftl leftchar 2) (N.shiftr v 4)) :: out)
            | 2%nat =>
                a2b_base64 rest 3 (N.land v 3) 0
                  (byte_of_N (N.lor (N.shiftl leftchar 4) (N.shiftr v 2)) :: out)
            | _ =>
                a2b_base64 rest 0 0 0
                  (byte_of_N (N.lor (N.shiftl leftchar 6) v) :: out)
            end
        end
  end.

Fixpoint is_ascii_only (s : string) : bool :=
  match s with
  | EmptyString => true
  | String c rest => (N_of_ascii c <? 128)%N && is_ascii_only rest
  end.

(** [base64.b64decode(x)] with its defaults. *)
Definition b64decode (x : json) : result bytes :=
  match x with
  | JStr s =>
      if is_ascii_only s then a2b_base64 s 0 0 0 []
      else Raise (Exn ValueError
                    "string argument should contain only ASCII characters")
  | _ => Raise (Exn TypeError
                 ("argument should be a bytes-like object or ASCII string, not '"
                  ++ type_name x ++ "'"))
  end.

Definition utf8 (s : string) : bytes := String.list_byte_of_string s.

(** The candidate images on the network. *)
Definition http_get (url : json) : result http_response :=
  match url with
  | JStr "http://db/alice.jpg" => Ok (HttpResponse 200 (utf8 "alice"))
  | JStr "http://db/bob.jpg" => Ok (HttpResponse 200 (utf8 "bob"))
  | JStr "http://db/landscape.jpg" => Ok (HttpResponse 200 (utf8 "?"))
  | JStr "http://db/gone.jpg" => Ok (HttpResponse 404 (utf8 "not found"))
  | JStr "http://down/carol.jpg" =>
      Raise (Exn RequestException "HTTPConnectionPool: Read timed out.")
  | _ => Raise (Exn RequestException "Invalid URL: No scheme supplied.")
  end.

Fixpoint bytes_eqb (a b : bytes) : bool :=
  match a, b with
  | [], [] => true
  | x :: a', y :: b' => Byte.eqb x y && bytes_eqb a' b'
  | _, _ => false
  end.

(** The matcher: a missing file and an image without a face (empty, or
    starting with a question mark) raise; otherwise the faces match when
    the contents agree. *)
Definition has_face (img : bytes) : bool :=
  match img with
  | [] => false
  | b :: _ => negb (Byte.eqb b Byte.x3f)
  end.

Definition deepface_verify (img1 img2 : option bytes) : result bool :=
  match img1, img2 with
  | Some a, Some b =>
      if has_face a && has_face b then Ok (bytes_eqb a b)
      else Raise (Exn ValueError "Face could not be detected.")
  | _, _ => Raise (Exn ValueError "Confirm that the image path exists.")
  end.

Fixpoint uuid_digits (n : nat) : string :=
  match n with
  | O => ""
  | S n' => String "a" (uuid_digits n')
  end.

(** The n-th UUID: distinct for distinct [n]. *)
Definition uuid_source (n : nat) : string := "uuid-" ++ uuid_digits n.

(** The stream: [sys.stdout] with the UTF-8 encoding, which refuses
    surrogates.  A surrogate is the three bytes 11101101 101xxxxx
    10xxxxxx; a value that is not a str is formatted with its surrogates
    escaped, so only a str can be refused. *)
Definition is_surrogate_point (point : string) : bool :=
  match point with
  | String a (String b _) =>
      (N_of_ascii a =? 237)%N && (160 <=? N_of_ascii b)%N
  | _ => false
  end.

Definition stdout_accepts (value : json) : bool :=
  match value with
  | JStr s => negb (existsb is_surrogate_point (code_points s))
  | _ => true
  end.

(** The code point of a three-byte character. *)
Definition code_point_of (point : string) : N :=
  match point with
  | String a (String b (String c _)) =>
      N.lor (N.shiftl (N.land (N_of_ascii a) 15) 12)
        (N.lor (N.shiftl (N.land (N_of_ascii b) 63) 6)
           (N.land (N_of_ascii c) 63))
  | _ => 0
  end.

Definition hex_digit (n : N) : Ascii.ascii :=
  if (n <? 10)%N then ascii_of_N (48 + n) else ascii_of_N (87 + n).

Definition hex4 (n : N) : string :=
  String (hex_digit (N.land (N.shiftr n 12) 15))
    (String (hex_digit (N.land (N.shiftr n 8) 15))
       (String (hex_digit (N.land (N.shiftr n 4) 15))
          (String (hex_digit (N.land n 15)) ""))).

Fixpoint surrogate_run (points : list string) : nat :=
  match points with
  | point :: rest =>
      if is_surrogate_point point then S (surrogate_run rest) else O
  | [] => O
  end.

(** Where the first surrogate of a text is, which one it is, and how many
    surrogates follow one another there. *)
Fixpoint find_surrogate (points : list string) (position : nat)
    : option (nat * string * nat) :=
  match points with
  | [] => None
  | point :: rest =>
      if is_surrogate_point point
      then Some (position, point, surrogate_run points)
      else find_surrogate rest (S position)
  end.

(** [str(e)] of the [UnicodeEncodeError] of the codec. *)
Definition encode_error (before : string) (value : json) : string :=
  match value with
  | JStr s =>
      match find_surrogate (code_points (before ++ s)) 0 with
      | Some (position, point, 1%nat) =>
          "'utf-8' codec can't encode character '\u"
          ++ hex4 (code_point_of point)
          ++ "' in position " ++ pretty position
          ++ ": surrogates not allowed"
      | Some (position, _, run) =>
          "'utf-8' codec can't encode characters in position "
          ++ pretty position ++ "-" ++ pretty (position + run - 1)%nat
          ++ ": surrogates not allowed"
      | None => ""
      end
  | _ => ""
  end.

Definition libs : ExternalLibs :=
  Build_ExternalLibs "/tmp" uuid_source http_get deepface_verify
    (fun s => b64decode (JStr s)) stdout_accepts encode_error.

(** A world with an empty temporary directory. *)
Definition fresh : World := mkWorld ∅ 0 [].

(** A request body with the two fields. *)
Definition request (captured_image : json) (database_urls : json)
    : result json :=
  Ok (JObj [("capturedImage", captured_image);
            ("databaseUrls", database_urls)]).

(** Run the endpoint on the doubles from the fresh world. *)
Definition post (request_json : result json) : result flask_response * World :=
  compare_faces (libs := libs) request_json fresh.

(** A world where a photo of alice already sits in the temporary
    directory, for running the scan on its own. *)
Definition photo_path : string := "/tmp/photo.jpg".

Definition with_photo : World := mkWorld {[photo_path := utf8 "alice"]} 0 [].

Definition alice : json := JStr "http://db/alice.jpg".
Definition bob : json := JStr "http://db/bob.jpg".
Definition landscape : json := JStr "http://db/landscape.jpg".
Definition gone : json := JStr "http://db/gone.jpg".
Definition carol : json := JStr "http://down/carol.jpg".

(** A str json.loads builds from the escape of U+D800: a lone surrogate,
    the bytes 237, 160, 128. *)
Definition lone_surrogate : string :=
  String (ascii_of_N 237) (String (ascii_of_N 160) (String (ascii_of_N 128) "")).

(** A candidate URL that cannot be printed. *)
Definition unprintable : json := JStr lone_surrogate.

(** The captured image of the examples: the bytes of "alice" in base64
    behind a data-URI prefix. *)
Definition alice_photo : json := JStr "data:image/jpeg;base64,YWxpY2U=".

(** The transient files of the first request and the first comparison. *)
Definition first_captured : string := "/tmp/temp_captured_uuid-.jpg".
Definition first_scratch : string := "/tmp/temp_url_uuid-.jpg".

End Doubles.

(** ** Facts *)

Ltac munfold :=
  unfold or_else, returned, world_after in *;
  unfold mbind, mret, M_bind, M_ret, result_bind, result_ret in *;
  unfold bind, ret, lift, try_except, Exception in *.

(** Unfold the primitive operations down to worlds. *)
Ltac prims :=
  unfold uuid_uuid4, requests_get, remove_if_exists, open_wb, file_write,
    DeepFace_verify, os_path_exists, os_remove, log, set_files in *.

(** Simplify the file-system lookups a run leaves behind. *)
Ltac fs_simpl :=
  repeat first
    [ rewrite lookup_insert_eq
    | rewrite lookup_delete_eq
    | rewrite lookup_insert_ne by done
    | rewrite lookup_delete_ne by done
    | rewrite bool_decide_eq_true_2 by eauto
    | progress simpl ].

Section ServiceFacts.

Context {libs : ExternalLibs}.

Implicit Types (w : World) (url : json) (photo_path : string).

Lemma compare_photo_with_url_returns photo_path url w :
  next_temp_url w ≠ photo_path ->
  returned (compare_photo_with_url photo_path url w)
  = Ok (candidate_matches (files w !! photo_path) url).
Proof.
  intros Hne. unfold compare_photo_with_url, candidate_matches, fetched.
  prims. munfold. simpl. fold (next_temp_url w).
  destruct (http_get url) as [[st c]|e]; simpl.
  - destruct (st =? 200)%Z; fs_simpl; [|done].
    destruct (deepface_verify _ _) as [v|e]; fs_simpl; [done|].
    destruct (is_RequestException e); fs_simpl; done.
  - destruct (is_RequestException e); simpl; [|done].
    destruct (files w !! next_temp_url w) eqn:E; simpl; rewrite ?E; done.
Qed.

(** A comparison always returns: nothing it calls can make it raise.  It
    draws one UUID and touches no file but its scratch file. *)
Lemma compare_photo_with_url_total photo_path url w :
  exists verdict w',
    compare_photo_with_url photo_path url w = (Ok verdict, w')
    /\ uuids_drawn w' = S (uuids_drawn w)
    /\ forall p, p ≠ next_temp_url w -> files w' !! p = files w !! p.
Proof.
  unfold compare_photo_with_url. prims. munfold. simpl.
  fold (next_temp_url w).
  destruct (http_get url) as [[st c]|e]; simpl.
  - destruct (st =? 200)%Z; fs_simpl; [|by eauto].
    destruct (deepface_verify _ _) as [v|e]; fs_simpl.
    + do 2 eexists; split_and!; [done..|]. intros p Hp. by fs_simpl.
    + destruct (is_RequestException e); fs_simpl;
        do 2 eexists; (split_and!; [done..|]); intros p Hp; by fs_simpl.
  - destruct (is_RequestException e); simpl; [|by eauto].
    destruct (files w !! next_temp_url w) eqn:E; simpl; rewrite ?E;
      do 2 eexists; (split_and!; [done..|]); intros p Hp; by fs_simpl.
Qed.

(** What a comparison leaves in its scratch file, for a fresh UUID: the
    file is gone after a download failure and after a verdict, and still
    holds the downloaded image when the matcher raised. *)
Lemma scratch_file_after_comparison photo_path url w :
  next_temp_url w ≠ photo_path ->
  files w !! next_temp_url w = None ->
  files (world_after (compare_photo_with_url photo_path url w))
    !! next_temp_url w
  = match fetched url with
    | Some image =>
        match deepface_verify (files w !! photo_path) (Some image) with
        | Ok _ => None
        | Raise e => if is_RequestException e then None else Some image
        end
    | None => None
    end.
Proof.
  intros Hne Hfresh. unfold compare_photo_with_url, fetched.
  prims. munfold. simpl. fold (next_temp_url w).
  destruct (http_get url) as [[st c]|e]; simpl.
  - destruct (st =? 200)%Z; fs_simpl; [|done].
    destruct (deepface_verify _ _) as [v|e]; fs_simpl; [done|].
    destruct (is_RequestException e); fs_simpl; done.
  - destruct (is_RequestException e); simpl; [|done]. by rewrite Hfresh.
Qed.

(** One turn of the loop of line 83. *)
Lemma compare_photo_and_array_loop_cons photo_path url urls w :
  compare_photo_and_array_loop photo_path (url :: urls) w
  = if stdout_accepts url then
      match compare_photo_with_url photo_path url w with
      | (Ok true, w') => (Ok url, w')
      | (_, w') => compare_photo_and_array_loop photo_path urls w'
      end
    else (Raise (Exn UnicodeEncodeError
                   (encode_error "Comparing with URL: " url)), w).
Proof.
  simpl. unfold py_print. munfold.
  destruct (stdout_accepts url); [|done].
  destruct (compare_photo_with_url photo_path url w) as [[[]|e] w']; done.
Qed.

Lemma compare_photo_and_array_loop_outcome photo_path urls w :
  photo_apart photo_path ->
  returned (compare_photo_and_array_loop photo_path urls w)
  = scan_outcome (files w !! photo_path) urls.
Proof.
  intros Hapart. revert w. induction urls as [|url urls IH]; intros w.
  - done.
  - rewrite compare_photo_and_array_loop_cons. simpl.
    destruct (stdout_accepts url); [|done].
    pose proof (compare_photo_with_url_returns photo_path url w
                  (Hapart (uuids_drawn w))) as Hret.
    destruct (compare_photo_with_url_total photo_path url w)
      as (verdict & w' & Hrun & _ & Hframe).
    rewrite Hrun in Hret |- *. unfold returned in Hret. simpl in Hret.
    injection Hret as ->.
    destruct (candidate_matches (files w !! photo_path) url); [done|].
    rewrite IH, Hframe; [done|]. intros ->. by apply (Hapart (uuids_drawn w)).
Qed.

(** When every candidate up to the first match can be printed, the
    outcome is the first match. *)
Lemma scan_outcome_printable photo (urls : list json) :
  Forall printable (visited photo urls) ->
  scan_outcome photo urls = Ok (first_match photo urls).
Proof.
  unfold first_match, printable.
  induction urls as [|url urls IH]; simpl; [done|]. intros Hprint.
  destruct (candidate_matches photo url);
    apply Forall_cons in Hprint as [-> Hrest]; [done|by apply IH].
Qed.

Lemma compare_photo_and_array_loop_returns photo_path urls w :
  photo_apart photo_path ->
  Forall printable (visited (files w !! photo_path) urls) ->
  returned (compare_photo_and_array_loop photo_path urls w)
  = Ok (first_match (files w !! photo_path) urls).
Proof.
  intros Hapart Hprint.
  by rewrite compare_photo_and_array_loop_outcome, scan_outcome_printable.
Qed.

(** What the loop returns is [None] or a URL line 84 has printed. *)
Lemma scan_outcome_printed photo (urls : list json) match_url :
  scan_outcome photo urls = Ok match_url ->
  match_url = JNull \/ printable match_url.
Proof.
  unfold printable. induction urls as [|url urls IH]; simpl.
  - intros [= <-]. by left.
  - destruct (stdout_accepts url) eqn:Hprint; [|done].
    destruct (candidate_matches photo url); [|done].
    intros [= <-]. by right.
Qed.

Lemma compare_photo_and_array_list photo_path (urls : list json) w :
  compare_photo_and_array photo_path (JArr urls) w
  = compare_photo_and_array_loop photo_path urls w.
Proof.
  unfold compare_photo_and_array. munfold. simpl.
  by destruct (compare_photo_and_array_loop photo_path urls w) as [[] ?].
Qed.

Lemma first_match_here photo (before after : list json) url :
  Forall (fun u => candidate_matches photo u = false) before ->
  candidate_matches photo url = true ->
  first_match photo (before ++ url :: after) = url.
Proof.
  unfold first_match. induction 1 as [|u before Hu _ IH]; intros Hurl; simpl.
  - by rewrite Hurl.
  - rewrite Hu. by apply IH.
Qed.

Lemma first_match_none photo (urls : list json) :
  Forall (fun u => candidate_matches photo u = false) urls ->
  first_match photo urls = JNull.
Proof.
  unfold first_match. induction 1 as [|u urls Hu _ IH]; simpl; [done|].
  by rewrite Hu.
Qed.

Lemma first_match_skip photo (before after : list json) url :
  candidate_matches photo url = false ->
  first_match photo (before ++ url :: after) = first_match photo (before ++ after).
Proof.
  unfold first_match. intros Hurl. induction before as [|u before IH]; simpl.
  - by rewrite Hurl.
  - by destruct (candidate_matches photo u).
Qed.

Lemma failure_is_no_match photo url :
  fetch_fails url \/ matcher_fails photo url ->
  candidate_matches photo url = false.
Proof.
  unfold fetch_fails, matcher_fails, candidate_matches.
  intros [-> | (image & e & -> & ->)]; done.
Qed.

Lemma visited_printable photo (urls : list json) :
  Forall printable urls -> Forall printable (visited photo urls).
Proof.
  induction 1 as [|url urls Hurl _ IH]; simpl; [done|].
  destruct (candidate_matches photo url); by repeat constructor.
Qed.

(** Where every candidate can be printed, the scan returns the first URL,
    in the order of the list, whose fetch succeeds and which the matcher
    reports as a match with the photo, and [None] when no URL of the list
    both fetches and matches. *)
Lemma scan_returns_first_match photo_path (urls : list json) w :
  photo_apart photo_path ->
  Forall printable urls ->
  let photo := files w !! photo_path in
  let answer :=
    returned (compare_photo_and_array photo_path (JArr urls) w) in
  (forall before url after,
      urls = (before ++ url :: after)%list ->
      Forall (fun u => candidate_matches photo u = false) before ->
      candidate_matches photo url = true ->
      answer = Ok url)
  /\ (Forall (fun u => candidate_matches photo u = false) urls ->
      answer = Ok JNull).
Proof.
  intros Hapart Hprint photo answer. subst answer.
  rewrite compare_photo_and_array_list,
    compare_photo_and_array_loop_returns by (done || by apply visited_printable).
  fold photo. split.
  - intros before url after -> Hbefore Hurl. by rewrite first_match_here.
  - intros Hnone. by rewrite first_match_none.
Qed.

(** A fetch failure (an exception of the HTTP library or a status other
    than 200) or a matcher exception makes the comparison return [False]
    as for a non-match; where every candidate can be printed, the scan
    answers as if the failing candidate were not in the list, and returns
    the N-th URL when every candidate before it fails and it matches. *)
Lemma failures_do_not_abort_scan photo_path w :
  photo_apart photo_path ->
  let photo := files w !! photo_path in
  let scan urls :=
    returned (compare_photo_and_array photo_path (JArr urls) w) in
  (forall url,
      fetch_fails url \/ matcher_fails photo url ->
      returned (compare_photo_with_url photo_path url w) = Ok false)
  /\ (forall before url after,
      Forall printable (before ++ url :: after)%list ->
      fetch_fails url \/ matcher_fails photo url ->
      scan (before ++ url :: after)%list = scan (before ++ after)%list)
  /\ (forall before url after,
      Forall printable (before ++ url :: after)%list ->
      Forall (fun u => fetch_fails u \/ matcher_fails photo u) before ->
      candidate_matches photo url = true ->
      scan (before ++ url :: after)%list = Ok url).
Proof.
  intros Hapart photo scan. subst scan. split_and!.
  - intros url Hfail.
    rewrite compare_photo_with_url_returns by apply Hapart.
    by rewrite failure_is_no_match.
  - intros before url after Hprint Hfail.
    assert (Forall printable (before ++ after)%list) as Hprint'.
    { apply Forall_app in Hprint as [? [_ ?]%Forall_cons].
      by apply Forall_app. }
    rewrite !compare_photo_and_array_list,
      !compare_photo_and_array_loop_returns
      by (done || by apply visited_printable).
    by rewrite first_match_skip by by apply failure_is_no_match.
  - intros before url after Hprint Hbefore Hurl.
    rewrite compare_photo_and_array_list,
      compare_photo_and_array_loop_returns
      by (done || by apply visited_printable).
    rewrite first_match_here; [done| |done].
    eapply Forall_impl; [exact Hbefore|]. apply failure_is_no_match.
Qed.

(** *** The endpoint *)

#[local] Arguments assoc : simpl never.
#[local] Arguments truthy : simpl never.
#[local] Arguments py_len : simpl never.
#[local] Arguments strip_data_uri_prefix : simpl never.
#[local] Arguments compare_photo_and_array : simpl never.

Lemma remove_if_exists_run path w :
  exists w',
    remove_if_exists path w = (Ok (), w')
    /\ files w' = delete path (files w)
    /\ uuids_drawn w' = uuids_drawn w.
Proof.
  unfold remove_if_exists. prims. munfold.
  destruct (files w !! path) eqn:E; fs_simpl; rewrite ?E.
  - by eexists.
  - eexists; split_and!; [done| |done]. simpl. by rewrite delete_id.
Qed.

(** A str that is not empty has a first character. *)
Lemma code_points_cons c s :
  exists point points, code_points (String c s) = point :: points.
Proof.
  unfold code_points. simpl.
  destruct (code_points_go s) as [continuation points].
  destruct (is_continuation_byte c); by eexists _, _.
Qed.

Lemma nonempty_container_len urls :
  nonempty_container urls = true ->
  exists n, py_len urls = Ok n /\ (n =? 0)%Z = false /\ truthy urls = true.
Proof.
  destruct urls as [| | | |[|c s]|[|u us]|[|kv items]]; try done; intros _.
  - destruct (code_points_cons c s) as (point & points & Hpoints).
    eexists. split; [done|]. split; [|done].
    apply Z.eqb_neq. rewrite Hpoints. simpl. lia.
  - eexists. split; [done|]. split; [|done]. apply Z.eqb_neq. simpl. lia.
  - eexists. split; [done|]. split; [|done]. apply Z.eqb_neq. simpl. lia.
Qed.

Lemma nonempty_container_iter urls :
  nonempty_container urls = true -> exists l, py_iter urls = Ok l.
Proof. destruct urls; try done; by eexists. Qed.

(** A request that passes validation, in one equation: the transient
    file is opened, the payload decoded and written, the scan run, the
    file removed and the answer built from what the scan returned. *)
Lemma compare_faces_run items img urls payload w :
  assoc "capturedImage" items = Some img ->
  assoc "databaseUrls" items = Some urls ->
  nonempty_container urls = true ->
  strip_data_uri_prefix img = Ok payload ->
  compare_faces (Ok (JObj items)) w
  = match b64decode payload with
    | Raise e =>
        (Ok (error_response ("Invalid base64 image data: " ++ exn_str e) 400),
         world_opened w)
    | Ok decoded =>
        match compare_photo_and_array (next_temp_captured w) urls
                (world_with_photo w decoded) with
        | (Ok match_url, w') =>
            (Ok (if truthy match_url then match_response match_url
                 else no_match_response),
             world_after (remove_if_exists (next_temp_captured w) w'))
        | (Raise e, w') => (Ok (error_response (exn_str e) 500), w')
        end
    end.
Proof.
  intros Himg Hurls Hne Hpayload.
  destruct (nonempty_container_len urls Hne) as (n & Hlen & Hn & Htruthy).
  assert (truthy (JObj items) = true) as Hdata.
  { destruct items; [done|]. by simpl. }
  unfold compare_faces. munfold. simpl.
  rewrite Hdata, Himg, Hurls. fs_simpl. rewrite Hlen, Htruthy. simpl.
  rewrite Hn, Hpayload.
  unfold uuid_uuid4, open_wb, file_write, log, set_files. simpl.
  fold (next_temp_captured w).
  destruct (b64decode payload) as [decoded|e]; [|done].
  unfold world_with_photo, world_opened. simpl.
  destruct (compare_photo_and_array _ _ _) as [[match_url|e] w']; [|done].
  destruct (remove_if_exists_run (next_temp_captured w) w')
    as (w'' & Hrm & _).
  rewrite Hrm. simpl.
  by destruct (truthy match_url).
Qed.

(** The scan on any value that can be iterated. *)
Lemma compare_photo_and_array_outcome photo_path urls (l : list json) w :
  photo_apart photo_path ->
  py_iter urls = Ok l ->
  returned (compare_photo_and_array photo_path urls w)
  = scan_outcome (files w !! photo_path) l.
Proof.
  intros Hapart Hiter.
  rewrite <- (compare_photo_and_array_loop_outcome photo_path l w Hapart).
  unfold compare_photo_and_array. munfold. rewrite Hiter.
  by destruct (compare_photo_and_array_loop photo_path l w) as [[] ?].
Qed.


(** When lines 123-127 hand a payload to the decoder and it fails base64
    decoding, an otherwise valid request is answered with status 400 and
    an [error] field that carries the decoder's description of the
    failure. *)
Lemma malformed_base64_is_400 items img urls payload e w :
  assoc "capturedImage" items = Some img ->
  assoc "databaseUrls" items = Some urls ->
  nonempty_container urls = true ->
  strip_data_uri_prefix img = Ok payload ->
  b64decode payload = Raise e ->
  returned (compare_faces (Ok (JObj items)) w)
  = Ok (FlaskResponse
          (JObj [("matchFound", JBool false);
                 ("error", JStr ("Invalid base64 image data: " ++ exn_str e))])
          400).
Proof.
  intros Himg Hurls Hne Hpayload Hdecode.
  rewrite (compare_faces_run _ _ _ _ _ Himg Hurls Hne Hpayload), Hdecode.
  done.
Qed.

(** C9. For a valid request, when the scan returns a matched URL the
    response is 200 with [matchFound] true, [matchedImageUrl] that URL and
    [confidence] the constant 0.85; when the scan returns [None] the
    response is 200 with [matchFound] false and a [message] field, and has
    no [error] field. *)
Theorem response_reports_scan_result items img urls payload decoded w :
  assoc "capturedImage" items = Some img ->
  assoc "databaseUrls" items = Some urls ->
  nonempty_container urls = true ->
  strip_data_uri_prefix img = Ok payload ->
  b64decode payload = Ok decoded ->
  let scan :=
    returned (compare_photo_and_array (next_temp_captured w) urls
                (world_with_photo w decoded)) in
  let response := returned (compare_faces (Ok (JObj items)) w) in
  (forall match_url,
      scan = Ok match_url -> truthy match_url = true ->
      response
      = Ok (FlaskResponse
              (JObj [("matchFound", JBool true);
                     ("matchedImageUrl", match_url);
                     ("confidence", JFloat 0.85)])
              200))
  /\ (scan = Ok JNull ->
      exists fields,
        response = Ok (FlaskResponse (JObj fields) 200)
        /\ assoc "matchFound" fields = Some (JBool false)
        /\ is_Some (assoc "message" fields)
        /\ assoc "error" fields = None).
Proof.
  intros Himg Hurls Hne Hpayload Hdecode scan response.
  subst scan response.
  rewrite (compare_faces_run _ _ _ _ _ Himg Hurls Hne Hpayload), Hdecode.
  destruct (compare_photo_and_array _ _ _) as [match_url' w'].
  unfold returned. simpl. split.
  - intros match_url -> Htruthy. simpl. by rewrite Htruthy.
  - intros ->. simpl. eexists. split; [done|]. by split_and!.
Qed.

(** *** The data-URI prefix *)

Lemma str_app_nil_r (s : string) : s ++ "" = s.
Proof.
  induction s as [|c s IH]; [done|].
  change (String c s ++ "") with (String c (s ++ "")). by rewrite IH.
Qed.

Lemma str_contains_comma_cons c s :
  str_contains "," (String c s) = Ascii.eqb c "," || str_contains "," s.
Proof.
  change (str_contains "," (String c s))
    with (Ascii.eqb "," c && true || str_contains "," s).
  by rewrite andb_true_r, Ascii.eqb_sym.
Qed.

Lemma str_split_no_comma s :
  str_contains "," s = false -> str_split "," s = [s].
Proof.
  induction s as [|c s IH]; [done|].
  rewrite str_contains_comma_cons. intros [Hc Hs]%orb_false_elim.
  simpl. by rewrite Hc, IH.
Qed.

Lemma str_split_at_comma pre rest :
  str_contains "," pre = false ->
  str_split "," (pre ++ String "," rest) = pre :: str_split "," rest.
Proof.
  induction pre as [|c pre IH]; [done|].
  rewrite str_contains_comma_cons. intros [Hc Hs]%orb_false_elim.
  change (String c pre ++ String "," rest)
    with (String c (pre ++ String "," rest)).
  simpl. by rewrite Hc, IH.
Qed.

Lemma str_contains_comma_app pre rest :
  str_contains "," (pre ++ String "," rest) = true.
Proof.
  induction pre as [|c pre IH].
  - by destruct rest.
  - change (String c pre ++ String "," rest)
      with (String c (pre ++ String "," rest)).
    rewrite str_contains_comma_cons, IH. apply orb_true_r.
Qed.

(** What lines 123-127 keep of a str with a comma whose prefix can be
    printed: the text between the first comma and the next one, or the
    end of the str. *)
Lemma strip_data_uri_prefix_piece pre mid rest :
  printable (JStr pre) ->
  str_contains "," pre = false ->
  str_contains "," mid = false ->
  rest = "" \/ (exists tail, rest = String "," tail) ->
  strip_data_uri_prefix (JStr (pre ++ String "," (mid ++ rest)))
  = Ok (JStr mid).
Proof.
  intros Hprint Hpre Hmid Hrest.
  assert (str_split "," (mid ++ rest) !! 0%nat = Some mid) as Hpiece.
  { destruct Hrest as [-> | [tail ->]].
    - by rewrite str_app_nil_r, str_split_no_comma.
    - by rewrite str_split_at_comma. }
  unfold strip_data_uri_prefix, py_contains, py_split_comma, list_getitem,
    py_print.
  munfold.
  rewrite str_contains_comma_app, str_split_at_comma by done.
  change ((pre :: ?l) !! 1%nat) with (l !! 0%nat).
  change ((pre :: ?l) !! 0%nat) with (Some pre).
  by rewrite Hpiece, Hprint.
Qed.

(** With a prefix that cannot be printed, line 127 raises. *)
Lemma strip_data_uri_prefix_unprintable pre rest :
  stdout_accepts (JStr pre) = false ->
  str_contains "," pre = false ->
  exists e, strip_data_uri_prefix (JStr (pre ++ String "," rest)) = Raise e.
Proof.
  intros Hprint Hpre.
  unfold strip_data_uri_prefix, py_contains, py_split_comma, list_getitem,
    py_print.
  munfold.
  rewrite str_contains_comma_app, str_split_at_comma by done.
  change ((pre :: ?l) !! 0%nat) with (Some pre).
  destruct (str_split "," rest) as [|piece pieces] eqn:Hsplit.
  - by destruct rest; simpl in Hsplit; repeat case_match.
  - change ((pre :: piece :: pieces) !! 1%nat) with (Some piece).
    rewrite Hprint. by eexists.
Qed.

(** A str without a comma is decoded as it is. *)
Lemma strip_data_uri_prefix_plain s :
  str_contains "," s = false -> strip_data_uri_prefix (JStr s) = Ok (JStr s).
Proof. intros Hs. unfold strip_data_uri_prefix. munfold. simpl. by rewrite Hs. Qed.

(** *** What a run adds to the trace *)

Lemma compare_photo_with_url_trace photo_path url w :
  exists evs,
    trace (world_after (compare_photo_with_url photo_path url w))
    = (evs ++ trace w)%list.
Proof.
  unfold compare_photo_with_url. prims. munfold. simpl.
  fold (next_temp_url w).
  destruct (http_get url) as [[st c]|e]; simpl.
  - destruct (st =? 200)%Z; fs_simpl; [|by eexists [_]].
    destruct (deepface_verify _ _) as [v|e]; fs_simpl.
    + by eexists [_; _; _; _; _].
    + destruct (is_RequestException e); fs_simpl.
      * by eexists [_; _; _; _; _].
      * by eexists [_; _; _; _].
  - destruct (is_RequestException e); simpl; [|by eexists [_]].
    destruct (files w !! next_temp_url w) eqn:E; simpl; rewrite ?E; simpl.
    + by eexists [_; _].
    + by eexists [_].
Qed.

Lemma compare_photo_and_array_loop_trace photo_path urls w :
  exists evs,
    trace (world_after (compare_photo_and_array_loop photo_path urls w))
    = (evs ++ trace w)%list.
Proof.
  revert w. induction urls as [|url urls IH]; intros w; [by exists []|].
  rewrite compare_photo_and_array_loop_cons.
  destruct (stdout_accepts url); [|by exists []].
  destruct (compare_photo_with_url_trace photo_path url w) as [evs Hevs].
  destruct (compare_photo_with_url photo_path url w) as [[[]|e] w'];
    unfold world_after in Hevs; simpl in Hevs.
  1: by exists evs.
  all: destruct (IH w') as [evs' Hevs']; exists (evs' ++ evs)%list;
    by rewrite Hevs', Hevs, app_assoc.
Qed.

Lemma compare_photo_and_array_trace photo_path urls w :
  exists evs,
    trace (world_after (compare_photo_and_array photo_path urls w))
    = (evs ++ trace w)%list.
Proof.
  unfold compare_photo_and_array. munfold.
  destruct (py_iter urls) as [l|e]; [|by exists []].
  destruct (compare_photo_and_array_loop_trace photo_path l w) as [evs Hevs].
  exists evs. unfold world_after in Hevs.
  by destruct (compare_photo_and_array_loop photo_path l w) as [[] ?].
Qed.

Lemma remove_if_exists_trace path w :
  exists evs,
    trace (world_after (remove_if_exists path w)) = (evs ++ trace w)%list.
Proof.
  unfold remove_if_exists. prims. munfold.
  destruct (files w !! path) eqn:E; fs_simpl; rewrite ?E.
  - by exists [EvRemove path].
  - by exists [].
Qed.

(** A request that passes validation and decodes writes the decoded bytes
    to its transient file. *)
Lemma compare_faces_writes_decoded items img urls payload decoded w :
  assoc "capturedImage" items = Some img ->
  assoc "databaseUrls" items = Some urls ->
  nonempty_container urls = true ->
  strip_data_uri_prefix img = Ok payload ->
  b64decode payload = Ok decoded ->
  In (EvWrite (next_temp_captured w) decoded)
     (trace (world_after (compare_faces (Ok (JObj items)) w))).
Proof.
  intros Himg Hurls Hne Hpayload Hdecode.
  rewrite (compare_faces_run _ _ _ _ _ Himg Hurls Hne Hpayload), Hdecode.
  destruct (compare_photo_and_array_trace (next_temp_captured w) urls
              (world_with_photo w decoded)) as [evs Hevs].
  destruct (compare_photo_and_array (next_temp_captured w) urls _)
    as [[match_url|e] w']; unfold world_after in Hevs; simpl in Hevs.
  - destruct (remove_if_exists_trace (next_temp_captured w) w')
      as [evs' Hevs'].
    unfold world_after at 1. simpl. rewrite Hevs', Hevs.
    apply in_or_app. right. apply in_or_app. right. by left.
  - unfold world_after. simpl. rewrite Hevs.
    apply in_or_app. right. by left.
Qed.

(** An exception of lines 123-127 reaches the handler of line 169. *)
Lemma compare_faces_strip_raises items img urls e w :
  assoc "capturedImage" items = Some img ->
  assoc "databaseUrls" items = Some urls ->
  nonempty_container urls = true ->
  strip_data_uri_prefix img = Raise e ->
  compare_faces (Ok (JObj items)) w = (Ok (error_response (exn_str e) 500), w).
Proof.
  intros Himg Hurls Hne Hstrip.
  destruct (nonempty_container_len urls Hne) as (n & Hlen & Hn & Htruthy).
  assert (truthy (JObj items) = true) as Hdata.
  { destruct items; [done|]. by simpl. }
  unfold compare_faces. munfold. simpl.
  rewrite Hdata, Himg, Hurls. fs_simpl. rewrite Hlen, Htruthy. simpl.
  by rewrite Hn, Hstrip.
Qed.

(** For a [capturedImage] str that contains a comma and whose prefix can
    be printed, the text before the first comma is dropped and the text
    between the first comma and the next comma (the whole remainder when
    there is no second comma) is what is base64-decoded and written to the
    transient file. *)
Lemma data_uri_payload_is_second_piece items pre mid rest urls w :
  let captured := pre ++ String "," (mid ++ rest) in
  assoc "capturedImage" items = Some (JStr captured) ->
  assoc "databaseUrls" items = Some urls ->
  nonempty_container urls = true ->
  printable (JStr pre) ->
  str_contains "," pre = false ->
  str_contains "," mid = false ->
  rest = "" \/ (exists tail, rest = String "," tail) ->
  strip_data_uri_prefix (JStr captured) = Ok (JStr mid)
  /\ forall decoded,
      b64decode (JStr mid) = Ok decoded ->
      In (EvWrite (next_temp_captured w) decoded)
         (trace (world_after (compare_faces (Ok (JObj items)) w))).
Proof.
  intros captured Himg Hurls Hne Hprint Hpre Hmid Hrest.
  pose proof (strip_data_uri_prefix_piece pre mid rest Hprint Hpre Hmid Hrest)
    as Hstrip.
  split; [done|]. intros decoded Hdecode.
  by eapply compare_faces_writes_decoded.
Qed.

(** C6, as the code has it. A [capturedImage] that is present but the
    empty str is not rejected: it passes validation and goes to the base64
    decoder; when the decoder accepts it, what it decoded is written to
    the transient file and the scan runs on [databaseUrls] against that
    file: the answer is the 200 built from what the scan returns, the
    match body for a truthy URL and the no-match body otherwise, and the
    world is the one the scan leaves, less the transient file. *)
Theorem empty_captured_image_is_scanned items urls decoded w :
  assoc "capturedImage" items = Some (JStr "") ->
  assoc "databaseUrls" items = Some urls ->
  nonempty_container urls = true ->
  b64decode (JStr "") = Ok decoded ->
  let run := compare_faces (Ok (JObj items)) w in
  In (EvWrite (next_temp_captured w) decoded) (trace (world_after run))
  /\ forall match_url w',
      compare_photo_and_array (next_temp_captured w) urls
        (world_with_photo w decoded)
      = (Ok match_url, w') ->
      returned run
      = Ok (if truthy match_url
            then FlaskResponse
                   (JObj [("matchFound", JBool true);
                          ("matchedImageUrl", match_url);
                          ("confidence", JFloat 0.85)])
                   200
            else FlaskResponse
                   (JObj [("matchFound", JBool false);
                          ("message",
                           JStr "No matching face found in the database")])
                   200)
      /\ world_after run
         = world_after (remove_if_exists (next_temp_captured w) w').
Proof.
  intros Himg Hurls Hne Hdecode run. subst run.
  assert (strip_data_uri_prefix (JStr "") = Ok (JStr "")) as Hstrip
    by by apply strip_data_uri_prefix_plain.
  split; [by eapply compare_faces_writes_decoded|].
  intros match_url w' Hscan.
  rewrite (compare_faces_run _ _ _ _ _ Himg Hurls Hne Hstrip), Hdecode, Hscan.
  done.
Qed.

(** C10, as the code has it. When [capturedImage] is [None], a bool or a
    number and [databaseUrls] is non-empty, the comma test of line 124
    raises a [TypeError] that only the handler of line 169 catches: the
    response is 500 with [matchFound] false, and the world is untouched. *)
Theorem scalar_captured_image_is_500 items img urls w :
  assoc "capturedImage" items = Some img ->
  assoc "databaseUrls" items = Some urls ->
  nonempty_container urls = true ->
  is_scalar img = true ->
  exists description,
    compare_faces (Ok (JObj items)) w
    = (Ok (FlaskResponse
             (JObj [("matchFound", JBool false); ("error", JStr description)])
             500),
       w).
Proof.
  intros Himg Hurls Hne Hscalar.
  destruct img; try done; eexists;
    by erewrite compare_faces_strip_raises by (done || reflexivity).
Qed.

(** The same handler answers a body that is itself a bool or a number
    other than zero: the membership test of line 103 raises on it. *)
Lemma scalar_body_is_500 data w :
  is_scalar data = true ->
  truthy data = true ->
  exists description,
    compare_faces (Ok data) w = (Ok (error_response description 500), w).
Proof.
  intros Hscalar Htruthy. unfold compare_faces. munfold.
  destruct data; try done; simpl; rewrite Htruthy; by eexists.
Qed.

(** When the decoder raises, line 135 has already created the transient
    file: the 400 response leaves it behind, empty. *)
Lemma decode_failure_leaves_empty_file items img urls payload e w :
  assoc "capturedImage" items = Some img ->
  assoc "databaseUrls" items = Some urls ->
  nonempty_container urls = true ->
  strip_data_uri_prefix img = Ok payload ->
  b64decode payload = Raise e ->
  files (world_after (compare_faces (Ok (JObj items)) w))
    !! next_temp_captured w
  = Some [].
Proof.
  intros Himg Hurls Hne Hpayload Hdecode.
  rewrite (compare_faces_run _ _ _ _ _ Himg Hurls Hne Hpayload), Hdecode.
  apply lookup_insert_eq.
Qed.

(** *** The two kinds of transient file never collide *)

Lemma temp_names_apart u u' : temp_url_name u ≠ temp_captured_name u'.
Proof.
  unfold temp_url_name, temp_captured_name, os_path_join.
  change (str_startswith "/" ("temp_url_" ++ u ++ ".jpg")) with false.
  change (str_startswith "/" ("temp_captured_" ++ u' ++ ".jpg")) with false.
  cbv iota.
  destruct (String.eqb tempdir "" || ends_with_slash tempdir).
  - intros H%(inj (String.append tempdir)). discriminate H.
  - intros H%(inj (String.append tempdir)). discriminate H.
Qed.

Lemma temp_captured_apart u : photo_apart (temp_captured_name u).
Proof. intros n. apply temp_names_apart. Qed.

(** End to end: on a list of URLs that can be printed the endpoint
    reports the first URL that fetches and matches the decoded photo. *)
Lemma compare_faces_answers_first_match items img (urls : list json)
    payload decoded w :
  assoc "capturedImage" items = Some img ->
  assoc "databaseUrls" items = Some (JArr urls) ->
  urls ≠ [] ->
  Forall printable urls ->
  strip_data_uri_prefix img = Ok payload ->
  b64decode payload = Ok decoded ->
  returned (compare_faces (Ok (JObj items)) w)
  = Ok (let match_url := first_match (Some decoded) urls in
        if truthy match_url then match_response match_url
        else no_match_response).
Proof.
  intros Himg Hurls Hne Hprint Hpayload Hdecode.
  assert (nonempty_container (JArr urls) = true) as Hcontainer
    by by destruct urls.
  rewrite (compare_faces_run _ _ _ _ _ Himg Hurls Hcontainer Hpayload), Hdecode.
  pose proof (compare_photo_and_array_loop_returns (next_temp_captured w) urls
                (world_with_photo w decoded)
                (temp_captured_apart _)) as Hscan.
  rewrite compare_photo_and_array_list.
  destruct (compare_photo_and_array_loop _ _ _) as [answer w'].
  unfold returned in *. simpl in Hscan.
  rewrite Hscan by by apply visited_printable.
  unfold world_with_photo. simpl. by rewrite lookup_insert_eq.
Qed.

End ServiceFacts.

(** ** The service on the test doubles *)

(** The photo of the doubles is none of the scratch files. *)
Lemma doubles_photo_apart : photo_apart (libs := Doubles.libs) Doubles.photo_path.
Proof. intros n H. vm_compute in H. discriminate H. Defined.

(** C3. The scratch file of a comparison is not deleted when the matcher
    raises: on a candidate that downloads with status 200 and on which
    [DeepFace.verify] raises (no face detected), [compare_photo_with_url]
    returns [False] and the downloaded image is still in the temporary
    directory.  Lines 62-63 and 69-70 remove the file on the other paths;
    the handler of line 73 does not. *)
Theorem scratch_file_left_on_matcher_error :
  let run :=
    compare_photo_with_url (libs := Doubles.libs) Doubles.photo_path
      Doubles.landscape Doubles.with_photo in
  returned run = Ok false
  /\ files (world_after run) !! Doubles.first_scratch = Some (Doubles.utf8 "?").
Proof. split; reflexivity. Qed.

(** C1. The scan does not return the first match of every list: when a
    candidate that [sys.stdout] cannot print comes before the match, the
    [print] of line 84, outside the [try] of line 85, raises
    [UnicodeEncodeError] and the scan ends with that exception, before
    anything is fetched.  The docstring of line 81 promises the URL of the
    first match or [None]. *)
Theorem scan_raises_on_unprintable_candidate :
  let run :=
    compare_photo_and_array (libs := Doubles.libs) Doubles.photo_path
      (JArr [Doubles.unprintable; Doubles.alice]) Doubles.with_photo in
  candidate_matches (libs := Doubles.libs) (Some (Doubles.utf8 "alice"))
    Doubles.alice = true
  /\ run
     = (Raise (Exn UnicodeEncodeError
                 "'utf-8' codec can't encode character '\ud800' in position 20: surrogates not allowed"),
        Doubles.with_photo).
Proof. split; reflexivity. Qed.

(** C2. A candidate that fails does abort the scan when it cannot be
    printed: the download of the candidate fails and the comparison
    itself returns [False] for it, yet the scan over a 404, that candidate
    and a match raises at line 84 instead of returning the match.  The
    [try] of line 85 isolates the comparison and not the [print] before
    it. *)
Theorem unprintable_failing_candidate_aborts_scan :
  let scan :=
    compare_photo_and_array (libs := Doubles.libs) Doubles.photo_path
      (JArr [Doubles.gone; Doubles.unprintable; Doubles.alice])
      Doubles.with_photo in
  fetch_fails (libs := Doubles.libs) Doubles.gone
  /\ fetch_fails (libs := Doubles.libs) Doubles.unprintable
  /\ returned
       (compare_photo_with_url (libs := Doubles.libs) Doubles.photo_path
          Doubles.unprintable Doubles.with_photo)
     = Ok false
  /\ candidate_matches (libs := Doubles.libs) (Some (Doubles.utf8 "alice"))
       Doubles.alice = true
  /\ returned scan
     = Raise (Exn UnicodeEncodeError
                "'utf-8' codec can't encode character '\ud800' in position 20: surrogates not allowed")
  /\ fetches_of (trace (world_after scan)) = [Doubles.gone].
Proof. split_and!; reflexivity. Qed.

(** C4. The transient file of the captured image is not deleted on the
    500 path: with a candidate URL that cannot be printed the photo is
    decoded and written (line 136), the scan raises at line 84, the
    handler of line 169 answers 500, and lines 149-150 never run: the
    file still holds the photo when the request completes. *)
Theorem captured_file_left_on_500 :
  let run :=
    Doubles.post (Doubles.request (JStr "YWxpY2U=") (JArr [Doubles.unprintable])) in
  returned run
  = Ok (FlaskResponse
          (JObj [("matchFound", JBool false);
                 ("error",
                  JStr "'utf-8' codec can't encode character '\ud800' in position 20: surrogates not allowed")])
          500)
  /\ In (EvWrite Doubles.first_captured (Doubles.utf8 "alice"))
       (trace (world_after run))
  /\ files (world_after run) !! Doubles.first_captured
     = Some (Doubles.utf8 "alice").
Proof.
  split_and!; [reflexivity| |reflexivity].
  vm_compute. repeat (first [left; reflexivity | right]).
Qed.

(** C8. A payload that fails base64 decoding is answered 500, not 400,
    when the prefix before it cannot be printed: the [print] of line 127
    raises before the decoder is reached, outside the [try] of line 133,
    and only the handler of line 169 catches it. *)
Theorem unprintable_prefix_is_500 :
  let captured := Doubles.lone_surrogate ++ ",QUJ" in
  strip_data_uri_prefix (libs := Doubles.libs) (JStr "x,QUJ") = Ok (JStr "QUJ")
  /\ Doubles.b64decode (JStr "QUJ")
     = Raise (Exn BinasciiError "Incorrect padding")
  /\ Doubles.post (Doubles.request (JStr captured) (JArr [Doubles.alice]))
     = (Ok (FlaskResponse
              (JObj [("matchFound", JBool false);
                     ("error",
                      JStr "'utf-8' codec can't encode character '\ud800' in position 35: surrogates not allowed")])
              500),
        Doubles.fresh).
Proof. split_and!; reflexivity. Qed.



(** A request that matches its second candidate. *)
Lemma response_reports_scan_result_witness :
  returned
    (compare_photo_and_array (libs := Doubles.libs) Doubles.first_captured
       (JArr [Doubles.gone; Doubles.alice])
       (world_with_photo (libs := Doubles.libs) Doubles.fresh
          (Doubles.utf8 "alice")))
  = Ok Doubles.alice
  /\ returned
       (Doubles.post
          (Doubles.request Doubles.alice_photo (JArr [Doubles.gone; Doubles.alice])))
     = Ok (FlaskResponse
             (JObj [("matchFound", JBool true);
                    ("matchedImageUrl", Doubles.alice);
                    ("confidence", JFloat 0.85)])
             200).
Proof.
  split; [reflexivity|].
  pose proof (response_reports_scan_result (libs := Doubles.libs)
                [("capturedImage", Doubles.alice_photo);
                 ("databaseUrls", JArr [Doubles.gone; Doubles.alice])]
                Doubles.alice_photo (JArr [Doubles.gone; Doubles.alice])
                (JStr "YWxpY2U=") (Doubles.utf8 "alice") Doubles.fresh
                eq_refl eq_refl eq_refl eq_refl eq_refl) as [Hmatch _].
  apply (Hmatch Doubles.alice); reflexivity.
Defined.

(** C6 as stated fails: an empty [capturedImage] with one candidate URL is
    answered with status 200, not 400. *)
Lemma empty_captured_image_not_rejected :
  ~ (exists response,
        returned (Doubles.post (Doubles.request (JStr "") (JArr [Doubles.alice])))
        = Ok response
        /\ status response = 400%Z).
Proof.
  intros (response & Hrun & Hstatus). vm_compute in Hrun.
  injection Hrun as <-. discriminate Hstatus.
Qed.

(** The empty [capturedImage] on the doubles: zero bytes are written,
    the scan fetches the candidate, the matcher finds no face in zero
    bytes, and the answer is the no-match 200. *)
Lemma empty_captured_image_is_scanned_witness :
  let run := Doubles.post (Doubles.request (JStr "") (JArr [Doubles.alice])) in
  Doubles.b64decode (JStr "") = Ok []
  /\ In (EvWrite Doubles.first_captured []) (trace (world_after run))
  /\ In (EvGet Doubles.alice) (trace (world_after run))
  /\ returned run
     = Ok (FlaskResponse
             (JObj [("matchFound", JBool false);
                    ("message", JStr "No matching face found in the database")])
             200).
Proof.
  pose proof (empty_captured_image_is_scanned (libs := Doubles.libs)
                [("capturedImage", JStr ""); ("databaseUrls", JArr [Doubles.alice])]
                (JArr [Doubles.alice]) [] Doubles.fresh
                eq_refl eq_refl eq_refl eq_refl) as [Hwritten Hscan].
  split; [reflexivity|]. split; [exact Hwritten|].
  split; [vm_compute; repeat (first [left; reflexivity | right])|].
  exact (proj1 (Hscan JNull _ eq_refl)).
Defined.

(** C7. Not everything after the first comma is decoded: with two commas
    in [capturedImage] the whole remainder [YWxp,Y2U=] decodes to the
    bytes of "alice", but [split(',')[1]] of line 126 keeps only [YWxp],
    and the file is written with the bytes of "ali".  The comment of line
    123 says the prefix is what is removed. *)
Theorem remainder_after_second_comma_dropped :
  let run :=
    Doubles.post
      (Doubles.request (JStr "data:image/jpeg;base64,YWxp,Y2U=")
         (JArr [Doubles.alice])) in
  Doubles.b64decode (JStr "YWxp,Y2U=") = Ok (Doubles.utf8 "alice")
  /\ strip_data_uri_prefix (libs := Doubles.libs)
       (JStr "data:image/jpeg;base64,YWxp,Y2U=")
     = Ok (JStr "YWxp")
  /\ In (EvWrite Doubles.first_captured (Doubles.utf8 "ali"))
       (trace (world_after run))
  /\ ~ In (EvWrite Doubles.first_captured (Doubles.utf8 "alice"))
         (trace (world_after run)).
Proof.
  split_and!; [reflexivity|reflexivity|..].
  - vm_compute. repeat (first [left; reflexivity | right]).
  - vm_compute. intros H.
    repeat (destruct H as [H|H]; [discriminate H|]). exact H.
Qed.

(** C10 as stated fails: a [capturedImage] that is a list is not a str, yet
    the comma test does not raise on it; the decoder rejects it inside the
    inner [try] and the response is 400, not 500. *)
Lemma list_captured_image_is_not_500 :
  ~ (exists response,
        returned (Doubles.post (Doubles.request (JArr []) (JArr [Doubles.alice])))
        = Ok response
        /\ status response = 500%Z).
Proof.
  intros (response & Hrun & Hstatus). vm_compute in Hrun.
  injection Hrun as <-. discriminate Hstatus.
Qed.

(** A number as [capturedImage]. *)
Lemma scalar_captured_image_is_500_witness :
  is_scalar (JInt 5) = true
  /\ exists description,
      Doubles.post (Doubles.request (JInt 5) (JArr [Doubles.alice]))
      = (Ok (FlaskResponse
               (JObj [("matchFound", JBool false);
                      ("error", JStr description)])
               500),
         Doubles.fresh).
Proof.
  split; [reflexivity|].
  apply (scalar_captured_image_is_500 (libs := Doubles.libs)
           [("capturedImage", JInt 5); ("databaseUrls", JArr [Doubles.alice])]
           (JInt 5) (JArr [Doubles.alice]) Doubles.fresh);
    reflexivity.
Defined.

(** ** Further facts about the service *)

Section ServiceMore.

Context {libs : ExternalLibs}.

Implicit Types (w : World) (url : json) (photo_path : string).

#[local] Arguments assoc : simpl never.
#[local] Arguments truthy : simpl never.
#[local] Arguments py_len : simpl never.
#[local] Arguments strip_data_uri_prefix : simpl never.
#[local] Arguments compare_photo_and_array : simpl never.

(** *** The shape of every answer *)

(** Close an early exit: an error response with its code. *)
Ltac early_exit :=
  eexists _, _; split; [|intros ?; reflexivity]; auto.

(** Every request either is answered with an error response before the
    service touches the world, the same in every world, or passes
    validation. *)
Lemma compare_faces_early request_json :
  (exists description code,
      (code = 400%Z \/ code = 500%Z)
      /\ forall w,
          compare_faces request_json w
          = (Ok (error_response description code), w))
  \/ (exists items img urls payload,
        request_json = Ok (JObj items)
        /\ assoc "capturedImage" items = Some img
        /\ assoc "databaseUrls" items = Some urls
        /\ nonempty_container urls = true
        /\ strip_data_uri_prefix img = Ok payload).
Proof.
  destruct request_json as [data|e]; [|left; early_exit].
  destruct data as [| | | | | |items].
  1-6: left; unfold compare_faces; munfold; unfold truthy; simpl;
       repeat case_match; simplify_eq; early_exit.
  destruct (assoc "capturedImage" items) as [img|] eqn:Himg.
  2: { left. unfold compare_faces. munfold. simpl. rewrite Himg.
       destruct (truthy (JObj items)); simpl; early_exit. }
  destruct (assoc "databaseUrls" items) as [urls|] eqn:Hurls.
  2: { left. unfold compare_faces. munfold. simpl. rewrite Himg, Hurls.
       destruct (truthy (JObj items)); simpl; early_exit. }
  assert (truthy (JObj items) = true) as Hdata.
  { destruct items; [done|]. by simpl. }
  destruct (nonempty_container urls) eqn:Hne.
  - destruct (strip_data_uri_prefix img) as [payload|e] eqn:Hpayload.
    + right. by eexists _, _, _, _.
    + left. eexists _, _. split; [|intros w;
        by rewrite (compare_faces_strip_raises _ _ _ _ _ Himg Hurls Hne Hpayload)].
      auto.
  - left. unfold compare_faces. munfold. simpl.
    rewrite Hdata, Himg, Hurls. fs_simpl.
    destruct urls as [| | | |[|c s]|[|u us]|[|kv kvs]]; try done;
      early_exit.
Qed.

Lemma compare_faces_total request_json w :
  exists response w', compare_faces request_json w = (Ok response, w').
Proof.
  destruct (compare_faces_early request_json)
    as [(description & code & Hcode & Hrun)
       | (items & img & urls & payload & -> & Himg & Hurls & Hne & Hpayload)].
  - rewrite Hrun. by eexists _, _.
  - rewrite (compare_faces_run _ _ _ _ _ Himg Hurls Hne Hpayload).
    destruct (b64decode payload) as [decoded|e]; [|by eexists _, _].
    destruct (compare_photo_and_array (next_temp_captured w) urls _)
      as [[match_url|e] w']; by eexists _, _.
Qed.

(** The endpoint never lets an exception out: every request gets one of
    the four answers of lines 104-175, and [matchFound] is true only in a
    200 that names a URL. *)
Theorem compare_faces_always_answers request_json w :
  exists response,
    returned (compare_faces request_json w) = Ok response
    /\ ((exists description, response = error_response description 400)
        \/ (exists description, response = error_response description 500)
        \/ response = no_match_response
        \/ (exists match_url,
              truthy match_url = true /\ response = match_response match_url)).
Proof.
  destruct (compare_faces_early request_json)
    as [(description & code & Hcode & Hrun)
       | (items & img & urls & payload & -> & Himg & Hurls & Hne & Hpayload)].
  - rewrite Hrun. eexists. split; [done|].
    destruct Hcode as [-> | ->]; eauto.
  - rewrite (compare_faces_run _ _ _ _ _ Himg Hurls Hne Hpayload).
    destruct (b64decode payload) as [decoded|e]; [|by eauto].
    destruct (compare_photo_and_array (next_temp_captured w) urls _)
      as [[match_url|e] w']; unfold returned; simpl.
    + eexists. split; [done|].
      destruct (truthy match_url) eqn:Htruthy; eauto 6.
    + eauto 6.
Qed.


(** *** What the scan fetches *)

Lemma fetches_of_app (later earlier : list event) :
  fetches_of (later ++ earlier) = (fetches_of earlier ++ fetches_of later)%list.
Proof. unfold fetches_of. by rewrite omap_app, rev_app_distr. Qed.

(** One comparison: one UUID, one fetch. *)
Lemma compare_photo_with_url_fetches photo_path url w :
  exists evs,
    trace (world_after (compare_photo_with_url photo_path url w))
    = (evs ++ trace w)%list
    /\ fetches_of evs = [url].
Proof.
  unfold compare_photo_with_url. prims. munfold. simpl.
  fold (next_temp_url w).
  destruct (http_get url) as [[st c]|e]; simpl.
  - destruct (st =? 200)%Z; fs_simpl; [|by eexists [_]].
    destruct (deepface_verify _ _) as [v|e]; fs_simpl.
    + by eexists [_; _; _; _; _].
    + destruct (is_RequestException e); fs_simpl.
      * by eexists [_; _; _; _; _].
      * by eexists [_; _; _; _].
  - destruct (is_RequestException e); simpl; [|by eexists [_]].
    destruct (files w !! next_temp_url w) eqn:E; simpl; rewrite ?E; simpl.
    + by eexists [_; _].
    + by eexists [_].
Qed.

Lemma compare_photo_and_array_loop_visits photo_path urls w :
  photo_apart photo_path ->
  Forall printable urls ->
  let run := compare_photo_and_array_loop photo_path urls w in
  exists evs,
    trace (world_after run) = (evs ++ trace w)%list
    /\ fetches_of evs = visited (files w !! photo_path) urls
    /\ uuids_drawn (world_after run)
       = (uuids_drawn w + length (visited (files w !! photo_path) urls))%nat.
Proof.
  intros Hapart Hprint. simpl. revert w.
  induction Hprint as [|url urls Hurl Hprint IH]; intros w.
  - exists []. simpl. split_and!; [done..|lia].
  - rewrite compare_photo_and_array_loop_cons, Hurl.
    pose proof (compare_photo_with_url_returns photo_path url w
                  (Hapart (uuids_drawn w))) as Hret.
    destruct (compare_photo_with_url_fetches photo_path url w)
      as (evs & Hevs & Hfetch).
    destruct (compare_photo_with_url_total photo_path url w)
      as (verdict & w' & Hrun & Hdrawn & Hframe).
    rewrite Hrun in Hret, Hevs |- *.
    unfold returned, world_after in Hret, Hevs. simpl in Hret, Hevs.
    injection Hret as ->. simpl.
    destruct (candidate_matches (files w !! photo_path) url).
    + exists evs. unfold world_after. simpl. split_and!; [done..|lia].
    + destruct (IH w') as (evs' & Hevs' & Hfetch' & Hdrawn').
      rewrite Hframe in Hfetch', Hdrawn'
        by (intros ->; by apply (Hapart (uuids_drawn w))).
      exists (evs' ++ evs)%list. split_and!.
      * by rewrite Hevs', Hevs, app_assoc.
      * by rewrite fetches_of_app, Hfetch, Hfetch'.
      * rewrite Hdrawn', Hdrawn. simpl. lia.
Qed.

Lemma visited_first_match photo (before after : list json) url :
  Forall (fun u => candidate_matches photo u = false) before ->
  candidate_matches photo url = true ->
  visited photo (before ++ url :: after) = (before ++ [url])%list.
Proof.
  induction 1 as [|u before Hu _ IH]; intros Hurl; simpl.
  - by rewrite Hurl.
  - by rewrite Hu, IH.
Qed.

Lemma visited_no_match photo (urls : list json) :
  Forall (fun u => candidate_matches photo u = false) urls ->
  visited photo urls = urls.
Proof.
  induction 1 as [|u urls Hu _ IH]; simpl; [done|]. by rewrite Hu, IH.
Qed.

(** On a list of URLs that can be printed the scan fetches the candidates
    one at a time in the order of the list and stops at the first match:
    the URLs after it are never fetched, and one UUID is drawn per URL
    fetched.  Without a match every URL is fetched exactly once. *)
Theorem scan_stops_at_first_match photo_path (urls : list json) w evs :
  photo_apart photo_path ->
  Forall printable urls ->
  let photo := files w !! photo_path in
  let w' :=
    world_after (compare_photo_and_array photo_path (JArr urls) w) in
  trace w' = (evs ++ trace w)%list ->
  (forall before url after,
      urls = (before ++ url :: after)%list ->
      Forall (fun u => candidate_matches photo u = false) before ->
      candidate_matches photo url = true ->
      fetches_of evs = (before ++ [url])%list
      /\ uuids_drawn w' = (uuids_drawn w + length before + 1)%nat)
  /\ (Forall (fun u => candidate_matches photo u = false) urls ->
      fetches_of evs = urls
      /\ uuids_drawn w' = (uuids_drawn w + length urls)%nat).
Proof.
  intros Hapart Hprint photo w' Htrace. subst w'.
  rewrite compare_photo_and_array_list in *.
  destruct (compare_photo_and_array_loop_visits photo_path urls w Hapart Hprint)
    as (evs' & Hevs' & Hfetch & Hdrawn).
  rewrite Hevs' in Htrace. apply app_inv_tail in Htrace. subst evs'.
  fold photo in Hfetch, Hdrawn. split.
  - intros before url after -> Hbefore Hurl.
    rewrite visited_first_match in Hfetch, Hdrawn by done.
    rewrite Hfetch, Hdrawn, length_app. simpl. split; [done|lia].
  - intros Hnone. rewrite visited_no_match in Hfetch, Hdrawn by done. done.
Qed.

(** *** When nothing is left behind *)

Lemma compare_photo_with_url_restores photo_path url w :
  next_temp_url w ≠ photo_path ->
  files w !! next_temp_url w = None ->
  ~ matcher_leaks (files w !! photo_path) url ->
  files (world_after (compare_photo_with_url photo_path url w)) = files w.
Proof.
  intros Hne Hfresh Hleak. unfold matcher_leaks, fetched in Hleak.
  unfold compare_photo_with_url. prims. munfold. simpl.
  fold (next_temp_url w).
  destruct (http_get url) as [[st c]|e]; simpl in *.
  - destruct (st =? 200)%Z; fs_simpl; [|done].
    destruct (deepface_verify (files w !! photo_path) (Some c))
      as [v|e] eqn:Hverify; fs_simpl.
    + by rewrite insert_insert_eq, delete_insert_id.
    + destruct (is_RequestException e) eqn:Hcls; fs_simpl.
      * by rewrite insert_insert_eq, delete_insert_id.
      * destruct Hleak. by eexists _, _.
  - destruct (is_RequestException e); simpl; [|done]. by rewrite Hfresh.
Qed.

Lemma compare_photo_and_array_loop_restores photo_path urls w :
  photo_apart photo_path ->
  scratch_fresh w ->
  let photo := files w !! photo_path in
  Forall (fun u => ~ matcher_leaks photo u) (visited photo urls) ->
  files (world_after (compare_photo_and_array_loop photo_path urls w))
  = files w.
Proof.
  intros Hapart. simpl. revert w.
  induction urls as [|url urls IH]; intros w Hfresh Hleaks; [done|].
  rewrite compare_photo_and_array_loop_cons.
  destruct (stdout_accepts url); [|done].
  pose proof (compare_photo_with_url_returns photo_path url w
                (Hapart (uuids_drawn w))) as Hret.
  assert (~ matcher_leaks (files w !! photo_path) url) as Hurl.
  { simpl in Hleaks.
    destruct (candidate_matches (files w !! photo_path) url);
      by inversion Hleaks. }
  pose proof (compare_photo_with_url_restores photo_path url w
                (Hapart (uuids_drawn w)) (Hfresh _ (le_n _)) Hurl) as Hfiles.
  destruct (compare_photo_with_url_total photo_path url w)
    as (verdict & w' & Hrun & Hdrawn & _).
  rewrite Hrun in Hret, Hfiles |- *.
  unfold returned, world_after in Hret, Hfiles. simpl in Hret, Hfiles.
  injection Hret as ->. simpl in Hleaks.
  destruct (candidate_matches (files w !! photo_path) url); [done|].
  rewrite <- Hfiles. apply IH.
  - intros n Hn. rewrite Hfiles. apply Hfresh. lia.
  - rewrite Hfiles. by inversion Hleaks.
Qed.

(** A scan on which no visited candidate makes the matcher raise leaves
    the file system exactly as it found it: every scratch file it created
    is gone and no other file was touched. *)
Theorem scan_restores_file_system photo_path (urls : list json) w :
  photo_apart photo_path ->
  scratch_fresh w ->
  let photo := files w !! photo_path in
  Forall (fun u => ~ matcher_leaks photo u) (visited photo urls) ->
  files (world_after (compare_photo_and_array photo_path (JArr urls) w))
  = files w.
Proof.
  intros Hapart Hfresh photo Hleaks.
  rewrite compare_photo_and_array_list.
  by apply compare_photo_and_array_loop_restores.
Qed.

(** A whole request that decodes, whose candidates can be printed and on
    which no visited candidate makes the matcher raise, leaves no file
    behind: the temporary directory is as before the request. *)
Theorem request_restores_file_system items img (urls : list json) payload
    decoded w :
  assoc "capturedImage" items = Some img ->
  assoc "databaseUrls" items = Some (JArr urls) ->
  urls ≠ [] ->
  Forall printable urls ->
  strip_data_uri_prefix img = Ok payload ->
  b64decode payload = Ok decoded ->
  files w !! next_temp_captured w = None ->
  scratch_fresh w ->
  Forall (fun u => ~ matcher_leaks (Some decoded) u)
    (visited (Some decoded) urls) ->
  files (world_after (compare_faces (Ok (JObj items)) w)) = files w.
Proof.
  intros Himg Hurls Hne Hprint Hpayload Hdecode Hcaptured Hfresh Hleaks.
  assert (nonempty_container (JArr urls) = true) as Hcontainer
    by by destruct urls.
  rewrite (compare_faces_run _ _ _ _ _ Himg Hurls Hcontainer Hpayload), Hdecode.
  assert (files (world_with_photo w decoded) !! next_temp_captured w
          = Some decoded) as Hphoto
    by (unfold world_with_photo; simpl; by rewrite lookup_insert_eq).
  pose proof (compare_photo_and_array_loop_restores (next_temp_captured w)
                urls (world_with_photo w decoded) (temp_captured_apart _))
    as Hscan.
  pose proof (compare_photo_and_array_loop_returns (next_temp_captured w)
                urls (world_with_photo w decoded) (temp_captured_apart _)
                (visited_printable _ _ Hprint)) as Hret.
  rewrite <- compare_photo_and_array_list in Hscan, Hret.
  rewrite Hphoto in Hscan. simpl in Hscan.
  destruct (compare_photo_and_array (next_temp_captured w) (JArr urls) _)
    as [[match_url|e] w']; [|done].
  unfold world_after in Hscan. simpl in Hscan.
  destruct (remove_if_exists_run (next_temp_captured w) w')
    as (w'' & Hrm & Hfiles & _).
  unfold world_after. rewrite Hrm. simpl. rewrite Hfiles, Hscan; [|..|done].
  - unfold world_with_photo, world_opened. simpl.
    by rewrite insert_insert_eq, delete_insert_id.
  - intros n Hn. unfold world_with_photo, world_opened. simpl.
    rewrite !lookup_insert_ne by (intros H; by apply (temp_names_apart _ _ (eq_sym H))).
    apply Hfresh. simpl in Hn. lia.
Qed.

(** *** The answer does not depend on the world *)

(** The answer to a request is decided by the request and the libraries
    alone: whatever files earlier requests left in the temporary
    directory and however many UUIDs were drawn, the response is the
    same. *)
Theorem response_independent_of_world request_json w1 w2 :
  returned (compare_faces request_json w1)
  = returned (compare_faces request_json w2).
Proof.
  destruct (compare_faces_early request_json)
    as [(description & code & Hcode & Hrun)
       | (items & img & urls & payload & -> & Himg & Hurls & Hne & Hpayload)].
  - by rewrite !Hrun.
  - rewrite !(compare_faces_run _ _ _ _ _ Himg Hurls Hne Hpayload).
    destruct (b64decode payload) as [decoded|e]; [|done].
    destruct (nonempty_container_iter urls Hne) as [l Hiter].
    pose proof (compare_photo_and_array_outcome (next_temp_captured w1) urls l
                  (world_with_photo w1 decoded) (temp_captured_apart _) Hiter)
      as Hscan1.
    pose proof (compare_photo_and_array_outcome (next_temp_captured w2) urls l
                  (world_with_photo w2 decoded) (temp_captured_apart _) Hiter)
      as Hscan2.
    destruct (compare_photo_and_array (next_temp_captured w1) urls _)
      as [answer1 w1'].
    destruct (compare_photo_and_array (next_temp_captured w2) urls _)
      as [answer2 w2'].
    unfold returned, world_with_photo in *. simpl in *.
    rewrite lookup_insert_eq in Hscan1, Hscan2.
    rewrite <- Hscan2 in Hscan1. subst answer1. by destruct answer2.
Qed.

(** *** The payload of a str *)

Lemma str_split_pieces s :
  Forall (fun piece => str_contains "," piece = false) (str_split "," s).
Proof.
  induction s as [|c s IH]; [by repeat constructor|].
  simpl. destruct (Ascii.eqb c ",") eqn:Hc.
  - by constructor.
  - destruct (str_split "," s) as [|piece pieces].
    + constructor; [|done]. by rewrite str_contains_comma_cons, Hc.
    + inversion IH as [|? ? Hpiece Hpieces]; subst. constructor; [|done].
      by rewrite str_contains_comma_cons, Hc, Hpiece.
Qed.

Lemma str_split_two s :
  str_contains "," s = true ->
  exists first second pieces, str_split "," s = first :: second :: pieces.
Proof.
  induction s as [|c s IH]; [done|].
  rewrite str_contains_comma_cons. simpl.
  destruct (Ascii.eqb c ",") eqn:Hc; simpl.
  - intros _. destruct s as [|c' s]; [by eexists _, _, _|].
    simpl. destruct (Ascii.eqb c' ","); [by eexists _, _, _|].
    destruct (str_split "," s); by eexists _, _, _.
  - intros (first & second & pieces & ->)%IH. by eexists _, _, _.
Qed.

(** On a str lines 123-127 raise nothing but the [UnicodeEncodeError] of
    the [print] of line 127, and only when the str has a comma.  What they
    hand to the decoder is a str without a comma, the str itself when that
    has none, and stripping it again changes nothing. *)
Theorem strip_data_uri_prefix_on_str s :
  (str_contains "," s = false -> strip_data_uri_prefix (JStr s) = Ok (JStr s))
  /\ (forall payload,
        strip_data_uri_prefix (JStr s) = Ok payload ->
        exists p,
          payload = JStr p
          /\ str_contains "," p = false
          /\ strip_data_uri_prefix (JStr p) = Ok (JStr p))
  /\ (forall e,
        strip_data_uri_prefix (JStr s) = Raise e ->
        exn_cls e = UnicodeEncodeError /\ str_contains "," s = true).
Proof.
  split; [apply strip_data_uri_prefix_plain|].
  destruct (str_contains "," s) eqn:Hcomma.
  - destruct (str_split_two s Hcomma) as (first & second & pieces & Hsplit).
    pose proof (str_split_pieces s) as Hpieces. rewrite Hsplit in Hpieces.
    apply Forall_cons in Hpieces as [_ [Hsecond _]%Forall_cons].
    assert (strip_data_uri_prefix (JStr s)
            = if stdout_accepts (JStr first) then Ok (JStr second)
              else Raise (Exn UnicodeEncodeError
                            (encode_error "Extracted base64 data with prefix: "
                               (JStr first)))) as ->.
    { unfold strip_data_uri_prefix, py_contains, py_split_comma, list_getitem,
        py_print.
      munfold. rewrite Hcomma, Hsplit. simpl.
      by destruct (stdout_accepts (JStr first)). }
    destruct (stdout_accepts (JStr first)); split.
    + intros payload [= <-]. exists second.
      by rewrite strip_data_uri_prefix_plain.
    + done.
    + done.
    + by intros e [= <-].
  - rewrite strip_data_uri_prefix_plain by done. split; [|done].
    intros payload [= <-]. exists s. by rewrite strip_data_uri_prefix_plain.
Qed.

(** *** Values of the wrong type *)

(** A [databaseUrls] that is [None], a bool or a number is answered 500,
    not the 400 of line 118: [len] on line 114 raises before the check,
    also when the value is falsy.  The world is untouched. *)
Theorem scalar_database_urls_is_500 items img urls w :
  assoc "capturedImage" items = Some img ->
  assoc "databaseUrls" items = Some urls ->
  is_scalar urls = true ->
  exists description,
    compare_faces (Ok (JObj items)) w
    = (Ok (FlaskResponse
             (JObj [("matchFound", JBool false); ("error", JStr description)])
             500),
       w).
Proof.
  intros Himg Hurls Hscalar.
  assert (truthy (JObj items) = true) as Hdata.
  { destruct items; [done|]. by simpl. }
  unfold compare_faces. munfold. simpl.
  rewrite Hdata, Himg, Hurls. fs_simpl.
  destruct urls; try done; by eexists.
Qed.

(** A [capturedImage] that is a list or an object: with the str [","]
    among its elements or keys, [split] does not exist on it and the
    answer is 500; without it the value goes to the decoder as it is, so
    the answer is the decoder's 400 or a 200, never a 500. *)
Theorem container_captured_image items img urls w :
  assoc "capturedImage" items = Some img ->
  assoc "databaseUrls" items = Some urls ->
  nonempty_container urls = true ->
  (exists xs, img = JArr xs) \/ (exists kvs, img = JObj kvs) ->
  let run := compare_faces (Ok (JObj items)) w in
  (py_contains "," img = Ok true ->
   exists description,
     run = (Ok (error_response description 500), w))
  /\ (py_contains "," img = Ok false ->
      exists response,
        returned run = Ok response
        /\ status response ≠ 500%Z
        /\ forall e,
            b64decode img = Raise e ->
            response
            = error_response ("Invalid base64 image data: " ++ exn_str e) 400).
Proof.
  intros Himg Hurls Hne Hcontainer run. subst run. split.
  - intros Hcomma.
    destruct Hcontainer as [[xs ->] | [kvs ->]]; eexists;
      eapply compare_faces_strip_raises; try done;
      unfold strip_data_uri_prefix; munfold; by rewrite Hcomma.
  - intros Hcomma.
    assert (strip_data_uri_prefix img = Ok img) as Hstrip.
    { unfold strip_data_uri_prefix. munfold. by rewrite Hcomma. }
    rewrite (compare_faces_run _ _ _ _ _ Himg Hurls Hne Hstrip).
    destruct Hcontainer as [[xs ->] | [kvs ->]]; unfold returned; simpl;
      eexists; (split_and!; [done..|]); by intros ? [= <-].
Qed.

(** *** A download that fails *)

(** A candidate whose download fails costs one UUID and one fetch and
    nothing else: no file is created, the matcher is not called, and the
    comparison returns [False]. *)
Theorem failed_download_touches_nothing photo_path url w :
  fetch_fails url ->
  files w !! next_temp_url w = None ->
  compare_photo_with_url photo_path url w
  = (Ok false,
     mkWorld (files w) (S (uuids_drawn w)) (EvGet url :: trace w)).
Proof.
  unfold fetch_fails, fetched. intros Hfail Hfresh.
  unfold compare_photo_with_url. prims. munfold. simpl.
  fold (next_temp_url w).
  destruct (http_get url) as [[st c]|e]; simpl in *.
  - by destruct (st =? 200)%Z.
  - destruct (is_RequestException e); simpl; [|done]. by rewrite Hfresh.
Qed.

(** *** Files that are not the service's *)

Lemma compare_photo_and_array_loop_frame photo_path urls w p :
  (forall n, p ≠ temp_url_name (uuid_source n)) ->
  files (world_after (compare_photo_and_array_loop photo_path urls w)) !! p
  = files w !! p.
Proof.
  intros Hp. revert w. induction urls as [|url urls IH]; intros w; [done|].
  rewrite compare_photo_and_array_loop_cons.
  destruct (stdout_accepts url); [|done].
  destruct (compare_photo_with_url_total photo_path url w)
    as (verdict & w' & -> & _ & Hframe).
  destruct verdict; [apply Hframe, Hp|].
  rewrite IH. apply Hframe, Hp.
Qed.

(** The service creates, overwrites and deletes nothing but its own
    transient files: a path that is neither a scratch name of the scan nor
    the transient name of the request holds after the request what it held
    before. *)
Theorem compare_faces_touches_only_its_files request_json w p :
  (forall n, p ≠ temp_url_name (uuid_source n)) ->
  p ≠ next_temp_captured w ->
  files (world_after (compare_faces request_json w)) !! p = files w !! p.
Proof.
  intros Hscratch Hcaptured.
  destruct (compare_faces_early request_json)
    as [(description & code & Hcode & Hrun)
       | (items & img & urls & payload & -> & Himg & Hurls & Hne & Hpayload)].
  - by rewrite Hrun.
  - rewrite (compare_faces_run _ _ _ _ _ Himg Hurls Hne Hpayload).
    destruct (b64decode payload) as [decoded|e].
    + destruct (nonempty_container_iter urls Hne) as [l Hiter].
      pose proof (compare_photo_and_array_loop_frame (next_temp_captured w) l
                    (world_with_photo w decoded) p Hscratch) as Hframe.
      unfold compare_photo_and_array. munfold. rewrite Hiter.
      destruct (compare_photo_and_array_loop _ l _) as [[match_url|e] w'];
        simpl in *.
      * destruct (remove_if_exists_run (next_temp_captured w) w')
          as (w'' & -> & Hfiles & _).
        simpl. rewrite Hfiles, lookup_delete_ne, Hframe by done.
        by rewrite !lookup_insert_ne.
      * rewrite Hframe. by rewrite !lookup_insert_ne.
    + simpl. by rewrite lookup_insert_ne.
Qed.

(** *** The transient file of the request *)

(** A request that is answered 200 has removed its transient file. *)
Lemma captured_file_is_removed request_json w response :
  returned (compare_faces request_json w) = Ok response ->
  status response = 200%Z ->
  files (world_after (compare_faces request_json w)) !! next_temp_captured w
  = None.
Proof.
  intros Hret Hstatus.
  destruct (compare_faces_early request_json)
    as [(description & code & Hcode & Hrun)
       | (items & img & urls & payload & -> & Himg & Hurls & Hne & Hpayload)].
  - rewrite Hrun in Hret. unfold returned in Hret. simpl in Hret.
    injection Hret as <-. simpl in Hstatus. by destruct Hcode; subst.
  - rewrite (compare_faces_run _ _ _ _ _ Himg Hurls Hne Hpayload) in *.
    destruct (b64decode payload) as [decoded|e]; [|by injection Hret as <-].
    destruct (compare_photo_and_array (next_temp_captured w) urls _)
      as [[match_url|e] w']; [|by injection Hret as <-].
    destruct (remove_if_exists_run (next_temp_captured w) w')
      as (w'' & Hrm & Hfiles & _).
    unfold world_after. rewrite Hrm. simpl. rewrite Hfiles.
    apply lookup_delete_eq.
Qed.

(** When the scan raises, the answer is 500 and the transient file still
    holds the decoded photo: lines 149-150 are not reached. *)
Lemma captured_file_left_when_scan_raises items img urls payload decoded e w :
  assoc "capturedImage" items = Some img ->
  assoc "databaseUrls" items = Some urls ->
  nonempty_container urls = true ->
  strip_data_uri_prefix img = Ok payload ->
  b64decode payload = Ok decoded ->
  returned (compare_photo_and_array (next_temp_captured w) urls
              (world_with_photo w decoded)) = Raise e ->
  let run := compare_faces (Ok (JObj items)) w in
  returned run = Ok (error_response (exn_str e) 500)
  /\ files (world_after run) !! next_temp_captured w = Some decoded.
Proof.
  intros Himg Hurls Hne Hpayload Hdecode Hscan. simpl.
  rewrite (compare_faces_run _ _ _ _ _ Himg Hurls Hne Hpayload), Hdecode.
  destruct (nonempty_container_iter urls Hne) as [l Hiter].
  pose proof (compare_photo_and_array_loop_frame (next_temp_captured w) l
                (world_with_photo w decoded) (next_temp_captured w)) as Hframe.
  unfold compare_photo_and_array in *. munfold. rewrite Hiter in *.
  destruct (compare_photo_and_array_loop _ l _) as [[match_url|e'] w'];
    simpl in *; [done|].
  injection Hscan as ->. split; [done|].
  rewrite Hframe by (intros n H; by apply (temp_names_apart _ _ (eq_sym H))).
  apply lookup_insert_eq.
Qed.

(** *** The names of the transient files *)

Lemma str_length_app (a b : string) :
  String.length (a ++ b) = (String.length a + String.length b)%nat.
Proof.
  induction a as [|c a IH]; [done|].
  change (String c a ++ b) with (String c (a ++ b)). simpl. by rewrite IH.
Qed.

Lemma str_app_inv_tail (a b t : string) : a ++ t = b ++ t -> a = b.
Proof.
  revert b. induction a as [|c a IH]; intros [|c' b] H.
  - done.
  - apply (f_equal String.length) in H.
    rewrite !str_length_app in H. simpl in H. lia.
  - apply (f_equal String.length) in H.
    rewrite !str_length_app in H. simpl in H. lia.
  - change (String c a ++ t) with (String c (a ++ t)) in H.
    change (String c' b ++ t) with (String c' (b ++ t)) in H.
    injection H as -> H. f_equal. by apply IH.
Qed.

Lemma os_path_join_relative (a b b' : string) :
  str_startswith "/" b = false ->
  str_startswith "/" b' = false ->
  os_path_join a b = os_path_join a b' -> b = b'.
Proof.
  unfold os_path_join. intros -> ->.
  destruct (String.eqb a "" || ends_with_slash a).
  - by intros H%(inj (String.append a)).
  - intros H%(inj (String.append a)). by injection H.
Qed.

(** The file names of lines 39 and 131 keep transient files apart
    whatever the temporary directory: a scratch file of the scan is never
    the transient file of a request, and two files of the same kind have
    the same name only for the same UUID. *)
Theorem transient_names_distinct (u u' : string) :
  temp_url_name u ≠ temp_captured_name u'
  /\ (temp_url_name u = temp_url_name u' -> u = u')
  /\ (temp_captured_name u = temp_captured_name u' -> u = u').
Proof.
  split_and!.
  - unfold temp_url_name, temp_captured_name. intros H.
    apply os_path_join_relative in H; [discriminate H|done..].
  - unfold temp_url_name. intros H.
    apply os_path_join_relative in H; [|done..].
    apply (inj (String.append "temp_url_")) in H.
    by apply str_app_inv_tail in H.
  - unfold temp_captured_name. intros H.
    apply os_path_join_relative in H; [|done..].
    apply (inj (String.append "temp_captured_")) in H.
    by apply str_app_inv_tail in H.
Qed.

End ServiceMore.

(** ** More of the service on the test doubles *)

(** A candidate of the doubles on which the matcher does not raise. *)
Ltac no_leak :=
  let image := fresh "image" in
  let e := fresh "e" in
  let Hfetched := fresh "Hfetched" in
  let Hverify := fresh "Hverify" in
  intros (image & e & Hfetched & Hverify & _);
  vm_compute in Hfetched;
  first [ discriminate Hfetched
        | injection Hfetched as <-; vm_compute in Hverify;
          discriminate Hverify ].

(** No scratch file is in the way in the two worlds of the doubles. *)
Lemma doubles_fresh_scratch : scratch_fresh (libs := Doubles.libs) Doubles.fresh.
Proof. intros n _. apply lookup_empty. Defined.

Lemma doubles_with_photo_scratch :
  scratch_fresh (libs := Doubles.libs) Doubles.with_photo.
Proof.
  intros n _. apply lookup_singleton_ne. intros H.
  exact (doubles_photo_apart n (eq_sym H)).
Defined.

(** Every URL of the doubles that is used as a candidate below can be
    printed. *)
Ltac all_printable := repeat (constructor; [reflexivity|]); constructor.


(** Four candidates, the third matches: three fetches in order, three
    UUIDs, and [carol] is never contacted. *)
Lemma scan_stops_at_first_match_witness :
  let w' :=
    world_after
      (compare_photo_and_array (libs := Doubles.libs) Doubles.photo_path
         (JArr [Doubles.gone; Doubles.bob; Doubles.alice; Doubles.carol])
         Doubles.with_photo) in
  fetches_of (trace w') = [Doubles.gone; Doubles.bob; Doubles.alice]
  /\ uuids_drawn w' = 3%nat.
Proof.
  pose proof (scan_stops_at_first_match (libs := Doubles.libs)
                Doubles.photo_path
                [Doubles.gone; Doubles.bob; Doubles.alice; Doubles.carol]
                Doubles.with_photo
                (trace (world_after
                   (compare_photo_and_array (libs := Doubles.libs)
                      Doubles.photo_path
                      (JArr [Doubles.gone; Doubles.bob; Doubles.alice;
                             Doubles.carol])
                      Doubles.with_photo)))
                doubles_photo_apart ltac:(all_printable)
                (eq_sym (app_nil_r _))) as [Hfirst _].
  apply (Hfirst [Doubles.gone; Doubles.bob] Doubles.alice [Doubles.carol]).
  - reflexivity.
  - repeat constructor.
  - reflexivity.
Defined.

(** A scan over a 404, a timeout, a stranger and a match: afterwards the
    directory holds the photo and nothing else. *)
Lemma scan_restores_file_system_witness :
  files (world_after
           (compare_photo_and_array (libs := Doubles.libs) Doubles.photo_path
              (JArr [Doubles.gone; Doubles.carol; Doubles.bob; Doubles.alice])
              Doubles.with_photo))
  = files Doubles.with_photo.
Proof.
  apply (scan_restores_file_system (libs := Doubles.libs) Doubles.photo_path
           [Doubles.gone; Doubles.carol; Doubles.bob; Doubles.alice]
           Doubles.with_photo doubles_photo_apart doubles_with_photo_scratch).
  change (Forall
            (fun u => ~ matcher_leaks (libs := Doubles.libs)
                        (Some (Doubles.utf8 "alice")) u)
            [Doubles.gone; Doubles.carol; Doubles.bob; Doubles.alice]).
  repeat (constructor; [no_leak|]). constructor.
Defined.

(** A whole request with a match: the directory is empty again. *)
Lemma request_restores_file_system_witness :
  files (world_after
           (Doubles.post
              (Doubles.request Doubles.alice_photo
                 (JArr [Doubles.gone; Doubles.bob; Doubles.alice]))))
  = ∅.
Proof.
  apply (request_restores_file_system (libs := Doubles.libs)
           [("capturedImage", Doubles.alice_photo);
            ("databaseUrls", JArr [Doubles.gone; Doubles.bob; Doubles.alice])]
           Doubles.alice_photo [Doubles.gone; Doubles.bob; Doubles.alice]
           (JStr "YWxpY2U=") (Doubles.utf8 "alice") Doubles.fresh
           eq_refl eq_refl).
  - discriminate.
  - all_printable.
  - reflexivity.
  - reflexivity.
  - apply lookup_empty.
  - exact doubles_fresh_scratch.
  - change (Forall
              (fun u => ~ matcher_leaks (libs := Doubles.libs)
                          (Some (Doubles.utf8 "alice")) u)
              [Doubles.gone; Doubles.bob; Doubles.alice]).
    repeat (constructor; [no_leak|]). constructor.
Defined.

(** [databaseUrls: null]. *)
Lemma scalar_database_urls_is_500_witness :
  exists description,
    Doubles.post (Doubles.request Doubles.alice_photo JNull)
    = (Ok (FlaskResponse
             (JObj [("matchFound", JBool false); ("error", JStr description)])
             500),
       Doubles.fresh).
Proof.
  apply (scalar_database_urls_is_500 (libs := Doubles.libs)
           [("capturedImage", Doubles.alice_photo); ("databaseUrls", JNull)]
           Doubles.alice_photo JNull Doubles.fresh);
    reflexivity.
Defined.

(** A list with a comma in it as [capturedImage]. *)
Lemma container_captured_image_witness :
  exists description,
    Doubles.post (Doubles.request (JArr [JStr ","]) (JArr [Doubles.alice]))
    = (Ok (error_response description 500), Doubles.fresh).
Proof.
  pose proof (container_captured_image (libs := Doubles.libs)
                [("capturedImage", JArr [JStr ","]);
                 ("databaseUrls", JArr [Doubles.alice])]
                (JArr [JStr ","]) (JArr [Doubles.alice]) Doubles.fresh
                eq_refl eq_refl eq_refl
                (or_introl (ex_intro _ [JStr ","] eq_refl))) as [Hcomma _].
  apply Hcomma. reflexivity.
Defined.

(** A 404: one UUID, one fetch, nothing else. *)
Lemma failed_download_touches_nothing_witness :
  compare_photo_with_url (libs := Doubles.libs) Doubles.photo_path Doubles.gone
    Doubles.with_photo
  = (Ok false,
     mkWorld (files Doubles.with_photo) 1 [EvGet Doubles.gone]).
Proof.
  apply (failed_download_touches_nothing (libs := Doubles.libs)
           Doubles.photo_path Doubles.gone Doubles.with_photo).
  - reflexivity.
  - apply (doubles_with_photo_scratch 0%nat). apply le_n.
Defined.

(** A request served while another file sits in the directory: that file
    is as before, also when the request leaves a scratch file behind. *)
Lemma compare_faces_touches_only_its_files_witness :
  files (world_after
           (compare_faces (libs := Doubles.libs)
              (Doubles.request Doubles.alice_photo (JArr [Doubles.landscape]))
              Doubles.with_photo))
    !! Doubles.photo_path
  = Some (Doubles.utf8 "alice").
Proof.
  rewrite (compare_faces_touches_only_its_files (libs := Doubles.libs)
             (Doubles.request Doubles.alice_photo (JArr [Doubles.landscape]))
             Doubles.with_photo Doubles.photo_path).
  - reflexivity.
  - intros n H. exact (doubles_photo_apart n (eq_sym H)).
  - intros H. vm_compute in H. discriminate H.
Defined.

(** End to end on the doubles. *)
Lemma compare_faces_answers_first_match_witness :
  returned
    (Doubles.post
       (Doubles.request Doubles.alice_photo
          (JArr [Doubles.gone; Doubles.alice; Doubles.bob])))
  = Ok (match_response Doubles.alice).
Proof.
  apply (compare_faces_answers_first_match (libs := Doubles.libs)
           [("capturedImage", Doubles.alice_photo);
            ("databaseUrls", JArr [Doubles.gone; Doubles.alice; Doubles.bob])]
           Doubles.alice_photo [Doubles.gone; Doubles.alice; Doubles.bob]
           (JStr "YWxpY2U=") (Doubles.utf8 "alice") Doubles.fresh
           eq_refl eq_refl).
  - discriminate.
  - all_printable.
  - reflexivity.
  - reflexivity.
Defined.

(** After a verdict the scratch file is gone. *)
Lemma scratch_file_after_comparison_witness :
  files (world_after
           (compare_photo_with_url (libs := Doubles.libs) Doubles.photo_path
              Doubles.bob Doubles.with_photo))
    !! Doubles.first_scratch
  = None.
Proof.
  apply (scratch_file_after_comparison (libs := Doubles.libs)
           Doubles.photo_path Doubles.bob Doubles.with_photo).
  - exact (doubles_photo_apart 0%nat).
  - apply (doubles_with_photo_scratch 0%nat). apply le_n.
Defined.

(** The empty file a decode failure leaves. *)
Lemma decode_failure_leaves_empty_file_witness :
  files (world_after
           (Doubles.post
              (Doubles.request (JStr "data:image/png;base64,QUJ")
                 (JArr [Doubles.alice]))))
    !! Doubles.first_captured
  = Some [].
Proof.
  apply (decode_failure_leaves_empty_file (libs := Doubles.libs)
           [("capturedImage", JStr "data:image/png;base64,QUJ");
            ("databaseUrls", JArr [Doubles.alice])]
           (JStr "data:image/png;base64,QUJ") (JArr [Doubles.alice])
           (JStr "QUJ") (Exn BinasciiError "Incorrect padding") Doubles.fresh);
    reflexivity.
Defined.
